(** * IBBLA Asistencia: a shallow embedding of [src/App.jsx]

    The development follows the source file from top to bottom: the
    JavaScript values the state is made of, the normalizer
    [ensureStateShape], the phone helper, the mutation operations of the
    configuration panel and of the attendance taker, the two statistics
    panels and the start-up reconciliation of the local and the remote
    copy.  Definitions come first, the properties after them. *)

From Stdlib Require Import ZArith NArith String Ascii List Permutation Lia.
From stdpp Require Import gmap list fin_maps sorting.

Set Default Proof Using "Type".
Local Open Scope Z_scope.

(** ** JavaScript strings

    A JavaScript string is a sequence of UTF-16 code units.  [str] turns an
    ASCII literal into its code units; the few non-ASCII letters of the
    source are written with their code unit. *)

Abbreviation jsstring := (list N).

Definition str (s : string) : jsstring :=
  map N_of_ascii (list_ascii_of_string s).

Arguments str : simpl never.

(** The order of [<], [>] and of [Array.prototype.sort] without a comparator
    on strings: code unit by code unit, a proper prefix first. *)
Fixpoint str_compare (a b : jsstring) : comparison :=
  match a, b with
  | [], [] => Eq
  | [], _ :: _ => Lt
  | _ :: _, [] => Gt
  | x :: a', y :: b' =>
      match N.compare x y with
      | Eq => str_compare a' b'
      | c => c
      end
  end.

Definition str_ltb (a b : jsstring) : bool :=
  match str_compare a b with Lt => true | _ => false end.

Definition str_leb (a b : jsstring) : bool :=
  match str_compare a b with Gt => false | _ => true end.

(** ** JavaScript values

    The state comes out of [JSON.parse]: null, booleans, numbers, strings,
    arrays and objects.  [VUndefined] is what reading a missing property
    gives.  Numbers are modelled by the integers (JSON has no NaN; the code
    below only asks whether a number is zero).  An object is the list of its
    own properties in creation order.  An array is an object too: besides its
    items it can be given named properties, which is what the normalizer does
    to an array it receives where an object was expected. *)

#[warnings="-register-all"]
Inductive value : Type :=
| VUndefined
| VNull
| VBool (b : bool)
| VNum (n : Z)
| VStr (s : jsstring)
| VArr (items : list value) (props : list (jsstring * value))
| VObj (props : list (jsstring * value)).

Abbreviation props_t := (list (jsstring * value)).

(** Evaluation either yields a value or throws a [TypeError]. *)
Inductive result (A : Type) : Type :=
| Ok (a : A)
| TypeError.
Arguments Ok {A} a.
Arguments TypeError {A}.

Definition bind {A B : Type} (r : result A) (k : A -> result B) : result B :=
  match r with
  | Ok a => k a
  | TypeError => TypeError
  end.

Notation "'let*' x ':=' e 'in' k" := (bind e (fun x => k))
  (at level 10, x name, e at level 100, k at level 200).

Fixpoint mapM {A B : Type} (f : A -> result B) (l : list A) : result (list B) :=
  match l with
  | [] => Ok []
  | x :: l' =>
      let* y := f x in
      let* ys := mapM f l' in
      Ok (y :: ys)
  end.

(** [!v] is [negb (truthy v)]. *)
Definition truthy (v : value) : bool :=
  match v with
  | VUndefined | VNull => false
  | VBool b => b
  | VNum n => negb (n =? 0)
  | VStr s => match s with [] => false | _ :: _ => true end
  | VArr _ _ | VObj _ => true
  end.

(** [typeof v === "object"]; it holds of [null]. *)
Definition typeof_object (v : value) : bool :=
  match v with
  | VNull | VArr _ _ | VObj _ => true
  | _ => false
  end.

(** [Array.isArray(v)] *)
Definition isArray (v : value) : bool :=
  match v with
  | VArr _ _ => true
  | _ => false
  end.

(** Own properties: reading the first binding of a name, and writing, which
    keeps the place of a property that exists and appends a new one. *)
Fixpoint own_get {V : Type} (k : jsstring) (ps : list (jsstring * V)) : option V :=
  match ps with
  | [] => None
  | (k', v) :: ps' => if decide (k = k') then Some v else own_get k ps'
  end.

Fixpoint own_set {V : Type} (k : jsstring) (v : V) (ps : list (jsstring * V))
    : list (jsstring * V) :=
  match ps with
  | [] => [(k, v)]
  | (k', v') :: ps' =>
      if decide (k = k') then (k, v) :: ps' else (k', v') :: own_set k v ps'
  end.

(** [v.k] for the property names the program uses ([clases], [asistencias],
    [version], [updatedAt], [alumnos]): none of them is inherited from a
    prototype, an index or [length], so on a boolean, a number or a string
    the read gives [undefined]; on [null] and [undefined] it throws. *)
Definition get (v : value) (k : jsstring) : result value :=
  match v with
  | VUndefined | VNull => TypeError
  | VBool _ | VNum _ | VStr _ => Ok VUndefined
  | VArr _ ps | VObj ps => Ok (default VUndefined (own_get k ps))
  end.

(** [v.k = x], giving the object after the assignment.  The file is an ES
    module, hence strict code: assigning a property to a primitive throws. *)
Definition set (v : value) (k : jsstring) (x : value) : result value :=
  match v with
  | VArr items ps => Ok (VArr items (own_set k x ps))
  | VObj ps => Ok (VObj (own_set k x ps))
  | _ => TypeError
  end.

(** ** The normalizer *)

Definition mkClase (id nombre rango : jsstring) : value :=
  VObj [(str "id", VStr id); (str "nombre", VStr nombre);
        (str "rango", VStr rango); (str "docente", VStr []);
        (str "alumnos", VArr [] [])].

(** [8211] is the en dash, [241] is n with tilde, [237] is i with acute. *)
Definition anos (a : string) (b : string) : jsstring :=
  str a ++ [8211%N] ++ str b ++ str " a" ++ [241%N] ++ str "os".

Definition DEFAULT_CLASSES : list value :=
  [ mkClase (str "logos") (str "Logos") (anos "18" "24");
    mkClase (str "smart") (str "Smart Class") (anos "25" "39");
    mkClase (str "moriah") (str "Moriah") (anos "40" "55");
    mkClase (str "horeb") (str "Horeb") (anos "56" "65");
    mkClase (str "sabiduria") (str "Sabidur" ++ [237%N] ++ str "a")
            (str "+66 a" ++ [241%N] ++ str "os") ].

(** The callback of [s.clases.forEach]: [if (!Array.isArray(c.alumnos))
    c.alumnos = [];].  The element is changed in place; here the changed
    element is returned. *)
Definition normalizar_alumnos (c : value) : result value :=
  let* al := get c (str "alumnos") in
  if negb (isArray al) then set c (str "alumnos") (VArr [] []) else Ok c.

(** [arr.forEach(f)] for a callback that changes its element in place.
    Calling [forEach] on something that is not an array throws. *)
Definition forEach (f : value -> result value) (arr : value) : result value :=
  match arr with
  | VArr items ps => let* items' := mapM f items in Ok (VArr items' ps)
  | _ => TypeError
  end.

(** [ensureStateShape(s)], with [now] for [new Date().toISOString()].  The
    source changes [s] in place and returns it; [s] is a tree (it comes from
    [JSON.parse] or from a previous call), so the result is the changed
    tree.  The last line writes the array whose elements [forEach] changed
    back where it was. *)
Definition ensureStateShape (now : jsstring) (s : value) : result value :=
  let base :=
    VObj [(str "version", VNum 1); (str "updatedAt", VStr now);
          (str "clases", VArr DEFAULT_CLASSES []); (str "asistencias", VObj [])] in
  if negb (truthy s) || negb (typeof_object s) then Ok base else
  let* clases := get s (str "clases") in
  let* s := if negb (isArray clases)
            then set s (str "clases") (VArr DEFAULT_CLASSES []) else Ok s in
  let* asis := get s (str "asistencias") in
  let* s := if negb (truthy asis) || negb (typeof_object asis)
            then set s (str "asistencias") (VObj []) else Ok s in
  let* ver := get s (str "version") in
  let* s := if negb (truthy ver) then set s (str "version") (VNum 1) else Ok s in
  let* upd := get s (str "updatedAt") in
  let* s := if negb (truthy upd) then set s (str "updatedAt") (VStr now) else Ok s in
  let* clases := get s (str "clases") in
  let* clases' := forEach normalizar_alumnos clases in
  set s (str "clases") clases'.

(** ** The phone helper *)

Definition is_digit (c : N) : bool := ((48 <=? c) && (c <=? 57))%N.
Definition is_plus (c : N) : bool := (c =? 43)%N.

(** The character class [[^+\d]]: anything but a plus sign and a digit. *)
Definition no_plus_ni_digito (c : N) : bool := negb (is_plus c || is_digit c).

(** [s.replace(re, "")] for a global regular expression that matches single
    code units: the matched code units are dropped, left to right. *)
Fixpoint replace_all (re : N -> bool) (s : jsstring) : jsstring :=
  match s with
  | [] => []
  | c :: s' => if re c then replace_all re s' else c :: replace_all re s'
  end.

(** [(t || "").replace(/[^+\d]/g, "")]; [replace] is a method of strings
    only. *)
Definition normalizePhone (t : value) : result jsstring :=
  match (if truthy t then t else VStr []) with
  | VStr s => Ok (replace_all no_plus_ni_digito s)
  | _ => TypeError
  end.

(** ** The document, typed as the comment on the data model has it

    [{ version, updatedAt, clases: [{ id, nombre, rango, docente, alumnos:
    [{ id, nombre, telefono? }] }], asistencias: { [fechaISO]: { [classId]:
    { [alumnoId]: { presente, nota? } } } } }].  The two optional fields and
    [presente], which a record made by [setNota] lacks, are options.  The
    objects of [asistencias] are dictionaries and are modelled as finite
    maps: one entry per key, read and written by key.  [map_to_list] lists
    the entries in an order of its own, not in the order of creation; the
    code sorts what it lists.  The name [__proto__], which an assignment
    treats in its own way, is supposed not to occur as a key. *)

Record Alumno : Type := {
  a_id : jsstring;
  a_nombre : jsstring;
  a_telefono : option jsstring
}.

Record Clase : Type := {
  c_id : jsstring;
  c_nombre : jsstring;
  c_rango : jsstring;
  c_docente : jsstring;
  c_alumnos : list Alumno
}.

Record Registro : Type := {
  presente : option bool;
  nota : option jsstring
}.

Abbreviation registros_t := (gmap jsstring Registro).
Abbreviation porClase_t := (gmap jsstring (gmap jsstring Registro)).
Abbreviation asistencias_t := (gmap jsstring (gmap jsstring (gmap jsstring Registro))).

Record State : Type := {
  version : Z;
  updatedAt : jsstring;
  clases : list Clase;
  asistencias : asistencias_t
}.

Definition set_updatedAt (now : jsstring) (p : State) : State :=
  {| version := version p; updatedAt := now;
     clases := clases p; asistencias := asistencias p |}.

Definition set_clases (cs : list Clase) (p : State) : State :=
  {| version := version p; updatedAt := updatedAt p;
     clases := cs; asistencias := asistencias p |}.

Definition set_asistencias (asis : asistencias_t) (p : State) : State :=
  {| version := version p; updatedAt := updatedAt p;
     clases := clases p; asistencias := asis |}.

Definition set_docente (docente : jsstring) (c : Clase) : Clase :=
  {| c_id := c_id c; c_nombre := c_nombre c; c_rango := c_rango c;
     c_docente := docente; c_alumnos := c_alumnos c |}.

Definition set_alumnos (als : list Alumno) (c : Clase) : Clase :=
  {| c_id := c_id c; c_nombre := c_nombre c; c_rango := c_rango c;
     c_docente := c_docente c; c_alumnos := als |}.

Definition set_telefono (telefono : jsstring) (a : Alumno) : Alumno :=
  {| a_id := a_id a; a_nombre := a_nombre a; a_telefono := Some telefono |}.

(** [reg?.presente] as a condition. *)
Definition es_presente (reg : option Registro) : bool :=
  match reg with
  | Some r => match presente r with Some true => true | _ => false end
  | None => false
  end.

(** [asistencias[f]?.[classId]?.[alumnoId]] *)
Definition registro_de (asis : asistencias_t) (f classId alumnoId : jsstring)
    : option Registro :=
  match asis !! f with
  | Some porClase =>
      match porClase !! classId with
      | Some registros => registros !! alumnoId
      | None => None
      end
  | None => None
  end.

(** The value a typed document stands for. *)
Definition opt_prop (k : jsstring) (o : option value) : props_t :=
  match o with
  | Some v => [(k, v)]
  | None => []
  end.

Definition alumno_to_value (a : Alumno) : value :=
  VObj ([(str "id", VStr (a_id a)); (str "nombre", VStr (a_nombre a))]
        ++ opt_prop (str "telefono") (VStr <$> a_telefono a)).

Definition clase_to_value (c : Clase) : value :=
  VObj [(str "id", VStr (c_id c)); (str "nombre", VStr (c_nombre c));
        (str "rango", VStr (c_rango c)); (str "docente", VStr (c_docente c));
        (str "alumnos", VArr (alumno_to_value <$> c_alumnos c) [])].

Definition registro_to_value (r : Registro) : value :=
  VObj (opt_prop (str "presente") (VBool <$> presente r)
        ++ opt_prop (str "nota") (VStr <$> nota r)).

Definition map_to_value {V : Type} (f : V -> value) (m : gmap jsstring V) : value :=
  VObj ((fun e => (e.1, f e.2)) <$> map_to_list m).

Definition to_value (st : State) : value :=
  VObj [(str "version", VNum (version st));
        (str "updatedAt", VStr (updatedAt st));
        (str "clases", VArr (clase_to_value <$> clases st) []);
        (str "asistencias",
         map_to_value (map_to_value (map_to_value registro_to_value))
           (asistencias st))].

(** ** The mutation operations

    Each one works on [deepClone(prev)]; on immutable values the clone is
    the value itself.  [now] stands for [new Date().toISOString()]. *)

(** [p.clases.find((c) => c.id === classId)] *)
Definition find_clase (classId : jsstring) (cs : list Clase) : option Clase :=
  List.find (fun c => bool_decide (c_id c = classId)) cs.

(** A change made to the object that [find] returned: it is the first
    element with that id that changes inside the array. *)
Fixpoint cambiar_clase (classId : jsstring) (f : Clase -> Clase)
    (cs : list Clase) : list Clase :=
  match cs with
  | [] => []
  | c :: cs' =>
      if bool_decide (c_id c = classId) then f c :: cs'
      else c :: cambiar_clase classId f cs'
  end.

Fixpoint cambiar_alumno (alumnoId : jsstring) (f : Alumno -> Alumno)
    (als : list Alumno) : list Alumno :=
  match als with
  | [] => []
  | a :: als' =>
      if bool_decide (a_id a = alumnoId) then f a :: als'
      else a :: cambiar_alumno alumnoId f als'
  end.

Definition changeDocente (now classId docente : jsstring) (prev : State) : State :=
  let p := prev in
  let p :=
    match find_clase classId (clases p) with
    | Some _ => set_clases (cambiar_clase classId (set_docente docente) (clases p)) p
    | None => p
    end in
  set_updatedAt now p.

Definition addAlumno (now classId : jsstring) (alumno : Alumno) (prev : State) : State :=
  let p := prev in
  match find_clase classId (clases p) with
  | None => p
  | Some _ =>
      let p := set_clases
                 (cambiar_clase classId
                    (fun c => set_alumnos (c_alumnos c ++ [alumno]) c) (clases p)) p in
      set_updatedAt now p
  end.

(** The body of the loop over [Object.keys(p.asistencias)] in
    [removeAlumno], on the entry of one date. *)
Definition borrar_registro (classId alumnoId : jsstring) (porClase : porClase_t)
    : porClase_t :=
  match porClase !! classId with
  | Some registros =>
      match registros !! alumnoId with
      | Some _ => <[classId := delete alumnoId registros]> porClase
      | None => porClase
      end
  | None => porClase
  end.

Definition removeAlumno (now classId alumnoId : jsstring) (prev : State) : State :=
  let p := prev in
  match find_clase classId (clases p) with
  | None => p
  | Some _ =>
      let p := set_clases
                 (cambiar_clase classId
                    (fun c => set_alumnos
                       (List.filter (fun a => negb (bool_decide (a_id a = alumnoId)))
                          (c_alumnos c)) c)
                    (clases p)) p in
      let p := set_asistencias (borrar_registro classId alumnoId <$> asistencias p) p in
      set_updatedAt now p
  end.

Definition editAlumnoTelefono (now classId alumnoId telefono : jsstring)
    (prev : State) : State :=
  let p := prev in
  match find_clase classId (clases p) with
  | None => p
  | Some _ =>
      let p := set_clases
                 (cambiar_clase classId
                    (fun c => set_alumnos
                       (cambiar_alumno alumnoId (set_telefono telefono) (c_alumnos c)) c)
                    (clases p)) p in
      set_updatedAt now p
  end.

(** The three lines [x[k] = x[k] || {}] and the assignment that follows
    them in [togglePresente] and [setNota]. *)
Definition con_registro (fecha claseId alumnoId : jsstring)
    (f : Registro -> Registro) (asis : asistencias_t) : asistencias_t :=
  let porClase := default empty (asis !! fecha) in
  let registros := default empty (porClase !! claseId) in
  let reg := default {| presente := None; nota := None |} (registros !! alumnoId) in
  <[fecha := <[claseId := <[alumnoId := f reg]> registros]> porClase]> asis.

Definition togglePresente (now fecha claseId alumnoId : jsstring) (v : bool)
    (prev : State) : State :=
  let p := prev in
  let p := set_asistencias
             (con_registro fecha claseId alumnoId
                (fun r => {| presente := Some v; nota := nota r |}) (asistencias p)) p in
  set_updatedAt now p.

Definition setNota (now fecha claseId alumnoId nota' : jsstring)
    (prev : State) : State :=
  let p := prev in
  let p := set_asistencias
             (con_registro fecha claseId alumnoId
                (fun r => {| presente := presente r; nota := Some nota' |})
                (asistencias p)) p in
  set_updatedAt now p.

(** ** Sorting

    [Array.prototype.sort] is stable; for a comparator that is consistent on
    the elements at hand its result is the stable sorted arrangement, which
    insertion from the right computes. *)

Section Sort.
Context {A : Type} (cmp : A -> A -> Z).

Fixpoint sort_insert (x : A) (l : list A) : list A :=
  match l with
  | [] => [x]
  | y :: l' => if cmp x y <=? 0 then x :: y :: l' else y :: sort_insert x l'
  end.

Definition js_sort (l : list A) : list A := foldr sort_insert [] l.
End Sort.

Definition signo (c : comparison) : Z :=
  match c with
  | Lt => -1
  | Eq => 0
  | Gt => 1
  end.

(** [arr.sort()] on strings: by code units. *)
Definition sort_strings (l : list jsstring) : list jsstring :=
  js_sort (fun a b => signo (str_compare a b)) l.

(** ** The statistics panels

    Two functions of the runtime are parameters: [a.localeCompare(b)], whose
    order the host's locale decides, and the double precision computation
    [Math.round((presentes / weeksTotal) * 100)]. *)

Record Punto : Type := {
  fecha : jsstring;
  total : nat
}.

Record Persona : Type := {
  p_alumnoId : jsstring;
  p_nombre : jsstring;
  p_telefono : option jsstring;
  p_clase : jsstring;
  p_docente : jsstring;
  p_classId : jsstring
}.

(** The four [let] variables of the loop in [StatsByPerson]. *)
Record Acum : Type := {
  ac_presentes : nat;
  ac_lastAttendance : option jsstring;
  ac_currentAbsentStreak : nat;
  ac_running : nat
}.

(** [{ ...p, presentes, semanas, porcentaje, lastAttendance,
    currentAbsentStreak, abandono }] *)
Record Fila : Type := {
  persona : Persona;
  presentes : nat;
  semanas : nat;
  porcentaje : Z;
  lastAttendance : option jsstring;
  currentAbsentStreak : nat;
  abandono : bool
}.

(** The two nested loops of [StatsByDate] over one date's entry. *)
Definition contar_presentes (porClase : porClase_t) : nat :=
  foldl (fun count cr =>
           foldl (fun count ar => if es_presente (Some ar.2) then S count else count)
             count (map_to_list cr.2))
    0%nat (map_to_list porClase).

(** [map[f] = count] for every entry of [state.asistencias]. *)
Definition serie_map (asis : asistencias_t) : gmap jsstring nat :=
  foldl (fun m e => <[e.1 := contar_presentes e.2]> m) empty (map_to_list asis).

(** [!lastAttendance]: unset, or set to the empty string. *)
Definition sin_ultima (la : option jsstring) : bool :=
  match la with
  | Some (_ :: _) => false
  | _ => true
  end.

(** One turn of [for (let i = fechas.length - 1; i >= 0; i--)]. *)
Definition paso (asis : asistencias_t) (p : Persona) (ac : Acum) (f : jsstring) : Acum :=
  if es_presente (registro_de asis f (p_classId p) (p_alumnoId p)) then
    {| ac_presentes := S (ac_presentes ac);
       ac_lastAttendance :=
         if sin_ultima (ac_lastAttendance ac) then Some f else ac_lastAttendance ac;
       ac_currentAbsentStreak :=
         if (ac_running ac =? 0)%nat then 0%nat else ac_currentAbsentStreak ac;
       ac_running := 0%nat |}
  else
    {| ac_presentes := ac_presentes ac;
       ac_lastAttendance := ac_lastAttendance ac;
       ac_currentAbsentStreak :=
         if sin_ultima (ac_lastAttendance ac) then S (ac_running ac)
         else ac_currentAbsentStreak ac;
       ac_running := S (ac_running ac) |}.

Definition recorrer (asis : asistencias_t) (p : Persona) (fechas : list jsstring) : Acum :=
  foldl (paso asis p)
    {| ac_presentes := 0%nat; ac_lastAttendance := None;
       ac_currentAbsentStreak := 0%nat; ac_running := 0%nat |}
    (reverse fechas).

(** [{ alumnoId: a.id, nombre: a.nombre, telefono: a.telefono,
    clase: c.nombre, docente: c.docente, classId: c.id }] *)
Definition persona_de (c : Clase) (a : Alumno) : Persona :=
  {| p_alumnoId := a_id a; p_nombre := a_nombre a;
     p_telefono := a_telefono a; p_clase := c_nombre c;
     p_docente := c_docente c; p_classId := c_id c |}.

(** [idx[a.id] = {...}] over all classes and their rosters; [idx] keeps its
    entries in creation order, one per key.  (An engine lists keys that are
    array indices before the others; that only affects the places of rows
    that tie in the final sort.) *)
Definition indexar (cs : list Clase) : list (jsstring * Persona) :=
  foldl (fun idx c =>
           foldl (fun idx a => own_set (a_id a) (persona_de c a) idx)
             idx (c_alumnos c))
    [] cs.

(** [Object.keys(state.asistencias).sort()] *)
Definition fechas_de (asis : asistencias_t) : list jsstring :=
  sort_strings (map_to_list asis).*1.

Section Runtime.
Variable localeCompare : jsstring -> jsstring -> Z.
Variable round_pct : nat -> nat -> Z.

(** [serie] of [StatsByDate] *)
Definition serie (st : State) : list Punto :=
  js_sort (fun a b => localeCompare (fecha a) (fecha b))
    ((fun e => {| fecha := e.1; total := e.2 |})
       <$> map_to_list (serie_map (asistencias st))).

(** [ranking] of [StatsByDate] *)
Definition ranking (st : State) : list Punto :=
  js_sort (fun a b => Z.of_nat (total b) - Z.of_nat (total a)) (serie st).

(** The callback of [Object.values(idx).map] in [StatsByPerson]. *)
Definition fila (asis : asistencias_t) (fechas : list jsstring) (p : Persona) : Fila :=
  let weeksTotal := length fechas in
  let ac := recorrer asis p fechas in
  {| persona := p;
     presentes := ac_presentes ac;
     semanas := weeksTotal;
     porcentaje :=
       if (weeksTotal =? 0)%nat then 0 else round_pct (ac_presentes ac) weeksTotal;
     lastAttendance := ac_lastAttendance ac;
     currentAbsentStreak := ac_currentAbsentStreak ac;
     abandono := (3 <=? ac_currentAbsentStreak ac)%nat |}.

(** The comparator of [porPersona.sort]. *)
Definition comparar_filas (a b : Fila) : Z :=
  if negb (eqb (abandono a) (abandono b))
  then Z.b2z (abandono b) - Z.b2z (abandono a)
  else if negb (currentAbsentStreak a =? currentAbsentStreak b)%nat
  then Z.of_nat (currentAbsentStreak b) - Z.of_nat (currentAbsentStreak a)
  else localeCompare (p_nombre (persona a)) (p_nombre (persona b)).

(** [personas] of [StatsByPerson] *)
Definition personas (st : State) : list Fila :=
  let idx := indexar (clases st) in
  let fechas := fechas_de (asistencias st) in
  let porPersona := fila (asistencias st) fechas <$> idx.*2 in
  js_sort comparar_filas porPersona.
End Runtime.

(** ** Start-up reconciliation

    [>] compares two strings by code units and two numbers as numbers; any
    other pair of operands is first converted by the runtime, which is the
    parameter [gt_coerced]. *)

Section Reconciliation.
Variable gt_coerced : value -> value -> bool.

(** [a || b] *)
Definition js_or (a b : value) : value := if truthy a then a else b.

(** [a > b] *)
Definition js_gt (a b : value) : bool :=
  match a, b with
  | VStr x, VStr y => str_ltb y x
  | VNum x, VNum y => y <? x
  | _, _ => gt_coerced a b
  end.

(** [(remote.updatedAt || 0) > (local.updatedAt || 0) ? remote : local] *)
Definition newer (remote local : value) : result value :=
  let* ru := get remote (str "updatedAt") in
  let* lu := get local (str "updatedAt") in
  Ok (if js_gt (js_or ru (VNum 0)) (js_or lu (VNum 0)) then remote else local).

(** The state set by the effect that runs on mount:
    [setState(ensureStateShape(newer))]. *)
Definition reconciliar (now : jsstring) (remote local : value) : result value :=
  let* n := newer remote local in
  ensureStateShape now n.
End Reconciliation.

(** ** The class card: adding a person

    [String.prototype.trim] strips the white space and the line terminators
    of ECMAScript from both ends; all of them are single code units. *)

Definition is_space (c : N) : bool :=
  ((c =? 9) || (c =? 10) || (c =? 11) || (c =? 12) || (c =? 13) || (c =? 32)
   || (c =? 160) || (c =? 5760) || ((8192 <=? c) && (c <=? 8202))
   || (c =? 8232) || (c =? 8233) || (c =? 8239) || (c =? 8287)
   || (c =? 12288) || (c =? 65279))%N.

Fixpoint trimStart (s : jsstring) : jsstring :=
  match s with
  | [] => []
  | c :: s' => if is_space c then trimStart s' else s
  end.

Definition trimEnd (s : jsstring) : jsstring := reverse (trimStart (reverse s)).

Definition trim (s : jsstring) : jsstring := trimEnd (trimStart s).

(** The state of one [ClassCard]: its two text inputs. *)
Record Entradas : Type := {
  alumnoNombre : jsstring;
  alumnoTel : jsstring
}.

(** The [onClick] of the button of [ClassCard]:
    [if (!alumnoNombre.trim()) return; onAddAlumno(clase.id, { id: newId(),
    nombre: alumnoNombre.trim(), telefono: alumnoTel.trim() });
    setAlumnoNombre(""); setAlumnoTel("");].  [id] is what [newId()] drew. *)
Definition anadir_click (now id claseId : jsstring) (inp : Entradas) (st : State)
    : State * Entradas :=
  match trim (alumnoNombre inp) with
  | [] => (st, inp)
  | _ :: _ =>
      (addAlumno now claseId
         {| a_id := id; a_nombre := trim (alumnoNombre inp);
            a_telefono := Some (trim (alumnoTel inp)) |} st,
       {| alumnoNombre := []; alumnoTel := [] |})
  end.

(** ** The attendance taker: what it shows for a date and a class *)

(** [(state.asistencias[fecha] || {})[claseId] || {}] *)
Definition registrosClase (st : State) (f claseId : jsstring) : registros_t :=
  default empty (default empty (asistencias st !! f) !! claseId).

(** [Object.values(registrosClase).filter((r) => r.presente).length] *)
Definition badge_presentes (st : State) (f claseId : jsstring) : nat :=
  length (List.filter (fun r => es_presente (Some r))
            (map_to_list (registrosClase st f claseId)).*2).

(** [clase?.alumnos.length ?? 0] *)
Definition badge_total (st : State) (claseId : jsstring) : nat :=
  match find_clase claseId (clases st) with
  | Some c => length (c_alumnos c)
  | None => 0%nat
  end.

(** ** The breakdown by class of the last date *)

Record Barra : Type := {
  b_clase : jsstring;
  b_presentes : nat
}.

(** [fechas[fechas.length - 1]] of the sorted keys; [None] is [undefined]. *)
Definition ultimaFecha (st : State) : option jsstring :=
  last (fechas_de (asistencias st)).

(** The loop [for (const aId of Object.keys(registros)) if
    (registros[aId]?.presente) presentes += 1]. *)
Definition contar_registros (registros : registros_t) : nat :=
  foldl (fun n ar => if es_presente (Some ar.2) then S n else n)
    0%nat (map_to_list registros).

(** [data] of [ClassBreakdownLast]; [!ultimaFecha] holds of [undefined] and
    of the empty string. *)
Definition breakdown (st : State) : list Barra :=
  match ultimaFecha st with
  | Some (c0 :: f0) =>
      let porClase := default empty (asistencias st !! (c0 :: f0)) in
      (fun c => {| b_clase := c_nombre c;
                   b_presentes :=
                     contar_registros (default empty (porClase !! c_id c)) |})
        <$> clases st
  | _ => []
  end.

(** ** Predicates of the specification *)

(** A plus sign occurs in [r] at the first place only. *)
Definition solo_mas_inicial (r : jsstring) : bool :=
  match r with
  | [] => true
  | _ :: r' => forallb (fun c => negb (is_plus c)) r'
  end.

(** The document has a class with this id. *)
Definition hay_clase (classId : jsstring) (st : State) : bool :=
  existsb (fun c => bool_decide (c_id c = classId)) (clases st).

(** The count of one date as the specification words it: the number of
    records, over all classes and persons, whose [presente] is true. *)
Definition num_presentes (porClase : porClase_t) : nat :=
  size (filter (fun kr : (jsstring * jsstring) * Registro => presente kr.2 = Some true)
          (map_uncurry (M1:=gmap jsstring) (M2:=gmap jsstring)
             (M12:=gmap (jsstring * jsstring)) porClase)).

(** An ISO calendar date, [YYYY-MM-DD]. *)
Definition es_fecha (f : jsstring) : bool :=
  match f with
  | [y1; y2; y3; y4; g1; m1; m2; g2; d1; d2] =>
      forallb is_digit [y1; y2; y3; y4; m1; m2; d1; d2]
      && (g1 =? 45)%N && (g2 =? 45)%N
  | _ => false
  end.

(** The records of one date, each under its pair (class id, person id). *)
Definition aplanar (porClase : porClase_t) : list ((jsstring * jsstring) * Registro) :=
  map_to_list porClase ≫=
    (fun cr => (fun ar => ((cr.1, ar.1), ar.2)) <$> map_to_list cr.2).

(** Every date key of the attendance is an ISO calendar date. *)
Definition fechas_iso (asis : asistencias_t) : bool :=
  forallb es_fecha (map_to_list asis).*1.

(** [currentAbsentStreak] as the specification words it: walking the dates
    from the most recent one backwards, the number of dates met before the
    first one on which the person has [presente] true. *)
Fixpoint racha_spec (asis : asistencias_t) (classId alumnoId : jsstring)
    (desc : list jsstring) : nat :=
  match desc with
  | [] => 0%nat
  | f :: desc' =>
      if es_presente (registro_de asis f classId alumnoId) then 0%nat
      else S (racha_spec asis classId alumnoId desc')
  end.

(** Walking the dates backwards, some date with [presente] true comes right
    after another one ([prev] tells whether the date before the list was
    one). *)
Fixpoint seguidas (asis : asistencias_t) (classId alumnoId : jsstring)
    (prev : bool) (desc : list jsstring) : bool :=
  match desc with
  | [] => false
  | f :: desc' =>
      if es_presente (registro_de asis f classId alumnoId)
      then prev || seguidas asis classId alumnoId true desc'
      else seguidas asis classId alumnoId false desc'
  end.

(** The persons of all rosters, each under its id. *)
Definition entradas (cs : list Clase) : list (jsstring * Persona) :=
  cs ≫= (fun c => (fun a => (a_id a, persona_de c a)) <$> c_alumnos c).

(** The pairs (class id, person id) of all rosters. *)
Definition pares (cs : list Clase) : list (jsstring * jsstring) :=
  cs ≫= (fun c => (fun a => (c_id c, a_id a)) <$> c_alumnos c).

(** A person's name as the data model wants it: not empty, and with no
    white space at either end. *)
Definition nombre_ok (n : jsstring) : bool :=
  match n with
  | [] => false
  | _ :: _ => bool_decide (trim n = n)
  end.

(** The invariants of the data model on the classes: the class ids differ
    from one another and, within a class, so do the person ids; every
    person has a proper name. *)
Definition roster_ok (c : Clase) : Prop :=
  NoDup (a_id <$> c_alumnos c)
  /\ Forall (fun a => nombre_ok (a_nombre a) = true) (c_alumnos c).

Definition estado_ok (st : State) : Prop :=
  NoDup (c_id <$> clases st) /\ Forall roster_ok (clases st).


(** ** Sample documents *)

Definition clase_vacia (id nombre rango : jsstring) : Clase :=
  {| c_id := id; c_nombre := nombre; c_rango := rango;
     c_docente := []; c_alumnos := [] |}.

(** The default document, typed. *)
Definition estado_inicial : State :=
  {| version := 1;
     updatedAt := str "2025-08-10T12:00:00.000Z";
     clases :=
       [ clase_vacia (str "logos") (str "Logos") (anos "18" "24");
         clase_vacia (str "smart") (str "Smart Class") (anos "25" "39");
         clase_vacia (str "moriah") (str "Moriah") (anos "40" "55");
         clase_vacia (str "horeb") (str "Horeb") (anos "56" "65");
         clase_vacia (str "sabiduria") (str "Sabidur" ++ [237%N] ++ str "a")
           (str "+66 a" ++ [241%N] ++ str "os") ];
     asistencias := empty |}.

Definition ana : Alumno :=
  {| a_id := str "a1"; a_nombre := str "Ana"; a_telefono := None |}.

Definition beto : Alumno :=
  {| a_id := str "a1"; a_nombre := str "Beto"; a_telefono := None |}.

(** Ana joins Logos and is marked present on one Sunday. *)
Definition estado_ana : State :=
  togglePresente (str "2025-08-10T12:02:00.000Z") (str "2025-08-10")
    (str "logos") (str "a1") true
    (addAlumno (str "2025-08-10T12:01:00.000Z") (str "logos") ana estado_inicial).

(** A document whose attendance mentions a class it does not have. *)
Definition estado_huerfano : State :=
  togglePresente (str "2025-08-10T12:02:00.000Z") (str "2025-08-10")
    (str "coro") (str "a1") true estado_inicial.

(** The example of the specification for the series by date:
    [{ "2025-01-05": {c1: {p1: {presente: true}}}, "2025-01-12": {} }]. *)
Definition estado_dos_fechas : State :=
  set_asistencias
    (<[str "2025-01-05" :=
         {[ str "c1" := {[ str "p1" := {| presente := Some true; nota := None |} ]} ]} ]>
     (<[str "2025-01-12" := empty]> empty))
    estado_inicial.

(** Ana, of Logos, came on two Sundays in a row and missed the third. *)
Definition estado_racha : State :=
  togglePresente (str "2025-08-17T12:00:00.000Z") (str "2025-08-17")
    (str "logos") (str "a1") false
    (togglePresente (str "2025-08-10T12:00:00.000Z") (str "2025-08-10")
       (str "logos") (str "a1") true
       (togglePresente (str "2025-08-03T12:00:00.000Z") (str "2025-08-03")
          (str "logos") (str "a1") true
          (addAlumno (str "2025-08-03T11:00:00.000Z") (str "logos") ana
             estado_inicial))).

(** The example of the specification for the streak: four dates, present
    on the first and the third only. *)
Definition estado_alterno : State :=
  togglePresente (str "2025-08-17T12:00:00.000Z") (str "2025-08-17")
    (str "logos") (str "a1") true
    (togglePresente (str "2025-08-24T12:00:00.000Z") (str "2025-08-24")
       (str "logos") (str "a1") false
       (togglePresente (str "2025-08-10T12:00:00.000Z") (str "2025-08-10")
          (str "logos") (str "a1") false
          (togglePresente (str "2025-08-03T12:00:00.000Z") (str "2025-08-03")
             (str "logos") (str "a1") true
             (addAlumno (str "2025-08-03T11:00:00.000Z") (str "logos") ana
                estado_inicial)))).

(** Ana in Logos and Beto in Smart Class carry the same person id. *)
Definition estado_homonimos : State :=
  addAlumno (str "2025-08-03T11:05:00.000Z") (str "smart") beto
    (addAlumno (str "2025-08-03T11:00:00.000Z") (str "logos") ana estado_inicial).

(** A host whose locale orders strings by code units. *)
Definition localeCompare_c (a b : jsstring) : Z := signo (str_compare a b).

(** A normalized document, as a value, last changed at [u]. *)
Definition doc_at (u : jsstring) : value :=
  VObj [(str "version", VNum 1); (str "updatedAt", VStr u);
        (str "clases", VArr [] []); (str "asistencias", VObj [])].

(** ** Views of the normalizer used to state and prove its properties *)

(** A value that is truthy and whose [typeof] is ["object"]: an object or an
    array. *)
Definition es_objeto (v : value) : bool := truthy v && typeof_object v.

(** The own properties of an object or array, and the same object or array
    with other properties. *)
Definition obj_props (v : value) : option props_t :=
  match v with
  | VArr _ ps | VObj ps => Some ps
  | _ => None
  end.

Definition with_props (v : value) (ps : props_t) : value :=
  match v with
  | VArr items _ => VArr items ps
  | VObj _ => VObj ps
  | _ => v
  end.

(** Reading a property where a throw counts as [undefined] (like [v?.k]). *)
Definition prop (v : value) (k : jsstring) : value :=
  match get v k with
  | Ok x => x
  | TypeError => VUndefined
  end.

(** One line [if (bad(s.k)) s.k = d;] of the normalizer, on the properties. *)
Definition fix_field (bad : value -> bool) (k : jsstring) (d : value)
    (ps : props_t) : props_t :=
  if bad (default VUndefined (own_get k ps)) then own_set k d ps else ps.

(** The four lines before the [forEach]. *)
Definition fill (now : jsstring) (ps : props_t) : props_t :=
  fix_field (fun v => negb (truthy v)) (str "updatedAt") (VStr now)
   (fix_field (fun v => negb (truthy v)) (str "version") (VNum 1)
    (fix_field (fun v => negb (truthy v) || negb (typeof_object v))
       (str "asistencias") (VObj [])
     (fix_field (fun v => negb (isArray v)) (str "clases")
        (VArr DEFAULT_CLASSES []) ps))).

(** A line of the normalizer leaves the properties alone when the field is
    acceptable already, or holds the default already. *)
Definition ok_at (bad : value -> bool) (k : jsstring) (d : value)
    (ps : props_t) : Prop :=
  bad (default VUndefined (own_get k ps)) = false \/ own_get k ps = Some d.

(** All four lines are without effect. *)
Definition all_ok (now : jsstring) (ps : props_t) : Prop :=
  ok_at (fun v => negb (isArray v)) (str "clases") (VArr DEFAULT_CLASSES []) ps /\
  ok_at (fun v => negb (truthy v) || negb (typeof_object v))
    (str "asistencias") (VObj []) ps /\
  ok_at (fun v => negb (truthy v)) (str "version") (VNum 1) ps /\
  ok_at (fun v => negb (truthy v)) (str "updatedAt") (VStr now) ps.

(** The result the specification calls well formed, as far as the code
    ensures it: [clases] is an array of objects whose [alumnos] are arrays,
    [asistencias] is an object (an array counts as one), [version] and
    [updatedAt] are truthy. *)
Definition clase_ok (c : value) : bool :=
  es_objeto c && isArray (prop c (str "alumnos")).

Definition clases_ok (v : value) : bool :=
  match v with
  | VArr items _ => forallb clase_ok items
  | _ => false
  end.

Definition shaped (d : value) : bool :=
  es_objeto d
  && clases_ok (prop d (str "clases"))
  && es_objeto (prop d (str "asistencias"))
  && truthy (prop d (str "version"))
  && truthy (prop d (str "updatedAt")).

(** The inputs on which the [forEach] callback does not throw: when [clases]
    is an array, its elements are objects or arrays. *)
Definition clases_de_objetos (s : value) : bool :=
  match prop s (str "clases") with
  | VArr items _ => forallb es_objeto items
  | _ => true
  end.

(** [version >= 1] as the specification words it. *)
Definition version_ge_1 (d : value) : bool :=
  match prop d (str "version") with
  | VNum n => 1 <=? n
  | _ => false
  end.

(** * Properties *)

(** ** Strings *)

Lemma str_compare_refl (a : jsstring) : str_compare a a = Eq.
Proof.
  induction a as [|x a IH]; simpl; [done|].
  by rewrite N.compare_refl.
Qed.

Lemma str_compare_eq (a b : jsstring) : str_compare a b = Eq -> a = b.
Proof.
  revert b; induction a as [|x a IH]; intros [|y b]; simpl; try done.
  destruct (N.compare_spec x y) as [->| |]; try done.
  intros H. by rewrite (IH b H).
Qed.

Lemma str_compare_antisym (a b : jsstring) :
  str_compare b a = CompOpp (str_compare a b).
Proof.
  revert b; induction a as [|x a IH]; intros [|y b]; simpl; try done.
  rewrite (N.compare_antisym x y).
  destruct (N.compare x y); simpl; auto.
Qed.

Lemma str_compare_lt_trans (a b c : jsstring) :
  str_compare a b = Lt -> str_compare b c = Lt -> str_compare a c = Lt.
Proof.
  revert b c; induction a as [|x a IH]; intros [|y b] [|z c]; simpl; try done.
  destruct (N.compare_spec x y) as [->|Hxy|Hxy]; try done.
  - destruct (N.compare_spec y z) as [->|Hyz|Hyz]; try done. apply IH.
  - intros _. destruct (N.compare_spec y z) as [->|Hyz|Hyz]; try done; intros _.
    + by apply N.compare_lt_iff in Hxy as ->.
    + assert (Hxz : (x < z)%N) by lia. by apply N.compare_lt_iff in Hxz as ->.
Qed.

Lemma str_leb_total (a b : jsstring) : str_leb a b = true \/ str_leb b a = true.
Proof.
  unfold str_leb. rewrite (str_compare_antisym a b).
  destruct (str_compare a b); simpl; auto.
Qed.

Lemma str_leb_trans (a b c : jsstring) :
  str_leb a b = true -> str_leb b c = true -> str_leb a c = true.
Proof.
  unfold str_leb. intros Hab Hbc.
  destruct (str_compare a b) eqn:E1; try done.
  - apply str_compare_eq in E1 as ->. done.
  - destruct (str_compare b c) eqn:E2; try done.
    + apply str_compare_eq in E2 as <-. by rewrite E1.
    + by rewrite (str_compare_lt_trans a b c E1 E2).
Qed.

Lemma str_leb_antisym (a b : jsstring) :
  str_leb a b = true -> str_leb b a = true -> a = b.
Proof.
  unfold str_leb. rewrite (str_compare_antisym a b).
  destruct (str_compare a b) eqn:E; simpl; try done.
  intros _ _. by apply str_compare_eq.
Qed.

(** ** Own properties *)

Lemma own_get_set_eq (k : jsstring) (v : value) (ps : props_t) :
  own_get k (own_set k v ps) = Some v.
Proof.
  induction ps as [|[k' v'] ps IH]; simpl.
  - by rewrite decide_True.
  - destruct (decide (k = k')) as [->|Hne]; simpl.
    + by rewrite decide_True.
    + by rewrite decide_False.
Qed.

Lemma own_get_set_ne (k k' : jsstring) (v : value) (ps : props_t) :
  k <> k' -> own_get k' (own_set k v ps) = own_get k' ps.
Proof.
  intros Hne. induction ps as [|[k0 v0] ps IH]; simpl.
  - by rewrite decide_False.
  - destruct (decide (k = k0)) as [->|Hne0]; simpl.
    + by rewrite !decide_False.
    + by rewrite IH.
Qed.

Lemma own_set_id (k : jsstring) (v : value) (ps : props_t) :
  own_get k ps = Some v -> own_set k v ps = ps.
Proof.
  induction ps as [|[k' v'] ps IH]; simpl; [done|].
  destruct (decide (k = k')) as [->|Hne].
  - by intros [= ->].
  - intros H. by rewrite IH.
Qed.

(** ** The normalizer *)

Lemma ensure_not_object (now : jsstring) (s : value) :
  es_objeto s = false ->
  ensureStateShape now s =
  Ok (VObj [(str "version", VNum 1); (str "updatedAt", VStr now);
            (str "clases", VArr DEFAULT_CLASSES []); (str "asistencias", VObj [])]).
Proof.
  unfold es_objeto, ensureStateShape. intros H.
  destruct (truthy s), (typeof_object s); simpl in *; done.
Qed.

Lemma es_objeto_props (s : value) :
  es_objeto s = true -> exists ps, obj_props s = Some ps.
Proof.
  unfold es_objeto. destruct s; simpl; rewrite ?andb_false_r; try done; eauto.
Qed.

Lemma ensure_object (now : jsstring) (s : value) (ps : props_t) :
  obj_props s = Some ps ->
  ensureStateShape now s =
  let* c := forEach normalizar_alumnos
              (default VUndefined (own_get (str "clases") (fill now ps))) in
  Ok (with_props s (own_set (str "clases") c (fill now ps))).
Proof.
  intros Hps. unfold ensureStateShape, fill, fix_field.
  destruct s; simpl in Hps; try done; injection Hps as ->; simpl.
  all: repeat match goal with
       | |- context [if ?b then _ else _] => destruct b; simpl
       end.
  all: try reflexivity.
  all: destruct (forEach _ _); reflexivity.
Qed.

Lemma fix_field_noop bad k d ps : ok_at bad k d ps -> fix_field bad k d ps = ps.
Proof.
  unfold fix_field. intros [->|H]; [done|].
  rewrite (own_set_id _ _ _ H). by destruct (bad _).
Qed.

Lemma own_get_fix_ne bad k k' d ps :
  k <> k' -> own_get k' (fix_field bad k d ps) = own_get k' ps.
Proof.
  intros Hne. unfold fix_field. destruct (bad _); [|done].
  by apply own_get_set_ne.
Qed.

Lemma own_get_fix_eq bad k d ps :
  default VUndefined (own_get k (fix_field bad k d ps)) =
  if bad (default VUndefined (own_get k ps)) then d
  else default VUndefined (own_get k ps).
Proof.
  unfold fix_field. destruct (bad _); [|done]. by rewrite own_get_set_eq.
Qed.

Lemma ok_at_fix bad k d ps : ok_at bad k d (fix_field bad k d ps).
Proof.
  unfold ok_at, fix_field.
  destruct (bad (default VUndefined (own_get k ps))) eqn:E.
  - right. apply own_get_set_eq.
  - by left.
Qed.

Lemma ok_at_set_ne bad k k' d v ps :
  k' <> k -> ok_at bad k d ps -> ok_at bad k d (own_set k' v ps).
Proof. intros Hne. unfold ok_at. by rewrite own_get_set_ne. Qed.

Lemma ok_at_fix_ne bad bad' k k' d d' ps :
  k' <> k -> ok_at bad k d ps -> ok_at bad k d (fix_field bad' k' d' ps).
Proof. intros Hne. unfold ok_at. by rewrite own_get_fix_ne. Qed.

Lemma ok_at_set_eq bad k d v ps : bad v = false -> ok_at bad k d (own_set k v ps).
Proof. intros H. left. by rewrite own_get_set_eq. Qed.

Lemma ok_at_good bad k d ps :
  ok_at bad k d ps -> bad d = false ->
  bad (default VUndefined (own_get k ps)) = false.
Proof. intros [H|H] Hd; [done|]. by rewrite H. Qed.

(** The property names are pairwise different. *)
Lemma names_ne :
  str "clases" <> str "asistencias" /\ str "clases" <> str "version" /\
  str "clases" <> str "updatedAt" /\ str "asistencias" <> str "version" /\
  str "asistencias" <> str "updatedAt" /\ str "version" <> str "updatedAt".
Proof. repeat split; by vm_compute. Qed.

Lemma fill_all_ok now ps : all_ok now (fill now ps).
Proof.
  destruct names_ne as (H1 & H2 & H3 & H4 & H5 & H6).
  unfold all_ok, fill. repeat split.
  - do 3 (apply ok_at_fix_ne; [congruence|]). apply ok_at_fix.
  - do 2 (apply ok_at_fix_ne; [congruence|]). apply ok_at_fix.
  - apply ok_at_fix_ne; [congruence|]. apply ok_at_fix.
  - apply ok_at_fix.
Qed.

Lemma all_ok_fill now ps : all_ok now ps -> fill now ps = ps.
Proof.
  intros (H1 & H2 & H3 & H4). unfold fill.
  rewrite (fix_field_noop _ _ _ _ H1), (fix_field_noop _ _ _ _ H2).
  by rewrite (fix_field_noop _ _ _ _ H3), (fix_field_noop _ _ _ _ H4).
Qed.

Lemma all_ok_set_clases now ps c :
  isArray c = true -> all_ok now ps -> all_ok now (own_set (str "clases") c ps).
Proof.
  destruct names_ne as (N1 & N2 & N3 & _).
  intros Hc (H1 & H2 & H3 & H4). repeat split.
  - apply ok_at_set_eq. by rewrite Hc.
  - by apply ok_at_set_ne.
  - by apply ok_at_set_ne.
  - by apply ok_at_set_ne.
Qed.

(** The callback of the [forEach]. *)
Lemma normalizar_alumnos_ok (c c' : value) :
  normalizar_alumnos c = Ok c' -> clase_ok c' = true.
Proof.
  unfold normalizar_alumnos, clase_ok, es_objeto, prop.
  destruct c; simpl; try done.
  all: destruct (own_get _ _) as [al|] eqn:E; simpl.
  all: try (destruct (isArray al) eqn:Ea; simpl).
  all: intros [= <-]; simpl; rewrite ?own_get_set_eq, ?E; simpl; done.
Qed.

Lemma normalizar_alumnos_id (c : value) :
  clase_ok c = true -> normalizar_alumnos c = Ok c.
Proof.
  unfold normalizar_alumnos, clase_ok, es_objeto, prop.
  destruct c; simpl; rewrite ?andb_false_r; try done.
  all: destruct (isArray _); simpl; done.
Qed.

Lemma normalizar_alumnos_defined (c : value) :
  es_objeto c = true -> exists c', normalizar_alumnos c = Ok c'.
Proof.
  unfold normalizar_alumnos, es_objeto.
  destruct c; simpl; rewrite ?andb_false_r; try done.
  all: destruct (isArray _); simpl; eauto.
Qed.

Lemma mapM_normalizar_ok (items items' : list value) :
  mapM normalizar_alumnos items = Ok items' -> forallb clase_ok items' = true.
Proof.
  revert items'; induction items as [|c items IH]; intros items'; simpl.
  - by intros [= <-].
  - destruct (normalizar_alumnos c) as [c'|] eqn:Ec; simpl; [|done].
    destruct (mapM normalizar_alumnos items) as [l|]; simpl; [|done].
    intros [= <-]. simpl. rewrite (normalizar_alumnos_ok _ _ Ec). by apply IH.
Qed.

Lemma mapM_normalizar_id (items : list value) :
  forallb clase_ok items = true -> mapM normalizar_alumnos items = Ok items.
Proof.
  induction items as [|c items IH]; simpl; [done|].
  intros [Hc Hl]%andb_prop.
  by rewrite (normalizar_alumnos_id _ Hc), (IH Hl).
Qed.

Lemma mapM_normalizar_defined (items : list value) :
  forallb es_objeto items = true ->
  exists items', mapM normalizar_alumnos items = Ok items'.
Proof.
  induction items as [|c items IH]; simpl; [eauto|].
  intros [Hc Hl]%andb_prop.
  destruct (normalizar_alumnos_defined _ Hc) as [c' ->].
  destruct (IH Hl) as [l ->]. simpl. eauto.
Qed.

Lemma forEach_normalizar_ok (c c' : value) :
  forEach normalizar_alumnos c = Ok c' -> clases_ok c' = true.
Proof.
  destruct c; simpl; try done.
  destruct (mapM normalizar_alumnos items) as [l|] eqn:E; simpl; [|done].
  intros [= <-]. simpl. by apply mapM_normalizar_ok in E.
Qed.

Lemma forEach_normalizar_id (c : value) :
  clases_ok c = true -> forEach normalizar_alumnos c = Ok c.
Proof.
  destruct c; simpl; try done. intros H. by rewrite mapM_normalizar_id.
Qed.

Lemma clases_ok_isArray (c : value) : clases_ok c = true -> isArray c = true.
Proof. by destruct c. Qed.

(** A document on which no line has an effect is returned as it is. *)
Lemma ensure_fixpoint (now : jsstring) (d c : value) (ps : props_t) :
  obj_props d = Some ps -> all_ok now ps ->
  own_get (str "clases") ps = Some c -> clases_ok c = true ->
  ensureStateShape now d = Ok d.
Proof.
  intros Hps Hok Hc Hcok.
  rewrite (ensure_object now d ps Hps), (all_ok_fill _ _ Hok), Hc. simpl.
  rewrite (forEach_normalizar_id _ Hcok). simpl.
  rewrite (own_set_id _ _ _ Hc).
  destruct d; simpl in *; congruence.
Qed.

Lemma obj_props_with_props (s : value) (ps ps' : props_t) :
  obj_props s = Some ps -> obj_props (with_props s ps') = Some ps'.
Proof. destruct s; simpl; done. Qed.

Lemma prop_of_props (s : value) (ps : props_t) (k : jsstring) :
  obj_props s = Some ps -> prop s k = default VUndefined (own_get k ps).
Proof. destruct s; simpl; try done; by intros [= ->]. Qed.

Lemma prop_not_object (s : value) (k : jsstring) :
  es_objeto s = false -> prop s k = VUndefined.
Proof. by destruct s. Qed.

Lemma es_objeto_with_props (s : value) (ps : props_t) :
  es_objeto s = true -> es_objeto (with_props s ps) = true.
Proof. by destruct s. Qed.

Lemma base_all_ok (now : jsstring) :
  all_ok now [(str "version", VNum 1); (str "updatedAt", VStr now);
              (str "clases", VArr DEFAULT_CLASSES []); (str "asistencias", VObj [])].
Proof.
  repeat split; [by left | by left | by left | by right].
Qed.

Lemma fill_clases (now : jsstring) (ps : props_t) :
  default VUndefined (own_get (str "clases") (fill now ps)) =
  if isArray (default VUndefined (own_get (str "clases") ps))
  then default VUndefined (own_get (str "clases") ps)
  else VArr DEFAULT_CLASSES [].
Proof.
  destruct names_ne as (N1 & N2 & N3 & _). unfold fill.
  rewrite !own_get_fix_ne by congruence. rewrite own_get_fix_eq.
  by destruct (isArray _).
Qed.

Lemma fill_version (now : jsstring) (ps : props_t) :
  default VUndefined (own_get (str "version") (fill now ps)) =
  if truthy (default VUndefined (own_get (str "version") ps))
  then default VUndefined (own_get (str "version") ps)
  else VNum 1.
Proof.
  destruct names_ne as (N1 & N2 & N3 & N4 & N5 & N6). unfold fill.
  rewrite own_get_fix_ne by congruence. rewrite own_get_fix_eq.
  rewrite !own_get_fix_ne by congruence.
  by destruct (truthy _).
Qed.

(** Whenever the normalizer returns, what it returns is well formed. *)
Lemma ensure_ok_shaped (now : jsstring) (s d : value) :
  now <> [] -> ensureStateShape now s = Ok d -> shaped d = true.
Proof.
  intros Hnow. destruct (es_objeto s) eqn:Es.
  - destruct (es_objeto_props s Es) as [ps Hps].
    rewrite (ensure_object now s ps Hps).
    destruct (forEach normalizar_alumnos _) as [c|] eqn:Ec; simpl; [|done].
    intros [= <-].
    destruct names_ne as (N1 & N2 & N3 & _).
    destruct (fill_all_ok now ps) as (H1 & H2 & H3 & H4).
    unfold shaped.
    rewrite !(prop_of_props _ _ _ (obj_props_with_props s ps _ Hps)).
    rewrite own_get_set_eq, !own_get_set_ne by congruence. simpl.
    rewrite (es_objeto_with_props _ _ Es), (forEach_normalizar_ok _ _ Ec). simpl.
    apply ok_at_good in H2; [|done]. apply ok_at_good in H3; [|done].
    apply ok_at_good in H4; [|by destruct now].
    apply orb_false_elim in H2 as [H2 H2'].
    unfold es_objeto.
    destruct (truthy (default VUndefined (own_get (str "asistencias") _))); [|done].
    destruct (typeof_object (default VUndefined (own_get (str "asistencias") _))); [|done].
    destruct (truthy (default VUndefined (own_get (str "version") _))); [|done].
    by destruct (truthy (default VUndefined (own_get (str "updatedAt") _))).
  - rewrite (ensure_not_object now s Es). intros [= <-].
    destruct now; [done|]. reflexivity.
Qed.

(** The normalizer returns on every input whose [clases], when it is an
    array, holds objects only. *)
Lemma ensure_defined (now : jsstring) (s : value) :
  clases_de_objetos s = true -> exists d, ensureStateShape now s = Ok d.
Proof.
  intros Hs. destruct (es_objeto s) eqn:Es.
  - destruct (es_objeto_props s Es) as [ps Hps].
    rewrite (ensure_object now s ps Hps).
    unfold clases_de_objetos in Hs. rewrite (prop_of_props s ps _ Hps) in Hs.
    rewrite fill_clases.
    destruct (default VUndefined (own_get (str "clases") ps)) as [| | | | |items cps|];
      simpl; eauto.
    destruct (mapM_normalizar_defined items Hs) as [items' ->]. simpl. eauto.
  - rewrite (ensure_not_object now s Es). eauto.
Qed.

(** What becomes of [version]: kept when truthy, else 1. *)
Lemma ensure_version (now : jsstring) (s d : value) :
  ensureStateShape now s = Ok d ->
  prop d (str "version") =
  if truthy (prop s (str "version")) then prop s (str "version") else VNum 1.
Proof.
  destruct (es_objeto s) eqn:Es.
  - destruct (es_objeto_props s Es) as [ps Hps].
    rewrite (ensure_object now s ps Hps).
    destruct (forEach normalizar_alumnos _) as [c|] eqn:Ec; simpl; [|done].
    intros [= <-].
    destruct names_ne as (N1 & N2 & N3 & _).
    rewrite (prop_of_props _ _ _ (obj_props_with_props s ps _ Hps)).
    rewrite (prop_of_props _ _ _ Hps).
    rewrite own_get_set_ne by congruence. apply fill_version.
  - rewrite (ensure_not_object now s Es). intros [= <-].
    by rewrite (prop_not_object s _ Es).
Qed.

(** C6. Normalization is idempotent: normalizing the result of
    [ensureStateShape] (with the same time stamp at hand) gives that result
    again; and when the first call throws, so does the composition. *)
Theorem ensureStateShape_idempotent (now : jsstring) (x : value) :
  (let* d := ensureStateShape now x in ensureStateShape now d)
  = ensureStateShape now x.
Proof.
  destruct (es_objeto x) eqn:Ex.
  - destruct (es_objeto_props x Ex) as [ps Hps].
    rewrite (ensure_object now x ps Hps).
    destruct (forEach normalizar_alumnos _) as [c|] eqn:Ec; simpl; [|done].
    pose proof (forEach_normalizar_ok _ _ Ec) as Hc.
    eapply ensure_fixpoint.
    + by eapply obj_props_with_props.
    + apply all_ok_set_clases; [by apply clases_ok_isArray|apply fill_all_ok].
    + apply own_get_set_eq.
    + done.
  - rewrite (ensure_not_object now x Ex). simpl.
    eapply ensure_fixpoint; [reflexivity|apply base_all_ok|reflexivity|reflexivity].
Qed.

(** C2, as the code has it.  On every input whose [clases], when it is an
    array, holds only objects or arrays, the normalizer returns without
    throwing, and what it returns is well formed: [clases] is an array,
    every class has an array [alumnos], [asistencias] is an object,
    [updatedAt] is set, and [version] is truthy: the input's own [version]
    when that was truthy, 1 otherwise. *)
Theorem ensureStateShape_well_formed (now : jsstring) (s : value) :
  now <> [] -> clases_de_objetos s = true ->
  exists d, ensureStateShape now s = Ok d /\ shaped d = true /\
    prop d (str "version") =
      (if truthy (prop s (str "version")) then prop s (str "version") else VNum 1).
Proof.
  intros Hnow Hs. destruct (ensure_defined now s Hs) as [d Hd].
  exists d. split; [done|]. split.
  - by eapply ensure_ok_shaped.
  - by eapply ensure_version.
Qed.

Lemma ensureStateShape_well_formed_witness :
  str "2025-08-10T12:00:00.000Z" <> []
  /\ clases_de_objetos
       (VObj [(str "clases", VArr [VObj [(str "id", VStr (str "c1"))]] []);
              (str "version", VNum 3)]) = true
  /\ exists d, ensureStateShape (str "2025-08-10T12:00:00.000Z")
                 (VObj [(str "clases", VArr [VObj [(str "id", VStr (str "c1"))]] []);
                        (str "version", VNum 3)]) = Ok d
               /\ shaped d = true /\ prop d (str "version") = VNum 3.
Proof.
  split; [by vm_compute|]. split; [reflexivity|].
  apply (ensureStateShape_well_formed (str "2025-08-10T12:00:00.000Z")
           (VObj [(str "clases", VArr [VObj [(str "id", VStr (str "c1"))]] []);
                  (str "version", VNum 3)])).
  - by vm_compute.
  - reflexivity.
Defined.

(** C2 as the specification states it fails twice: a [null] among the
    classes makes the normalizer throw, and a [version] below 1 is kept. *)
Lemma ensureStateShape_not_total :
  ensureStateShape (str "2025-08-10T12:00:00.000Z")
    (VObj [(str "clases", VArr [VNull] [])]) = TypeError
  /\ exists d, ensureStateShape (str "2025-08-10T12:00:00.000Z")
                 (VObj [(str "version", VNum (-1))]) = Ok d
               /\ version_ge_1 d = false.
Proof.
  split; [reflexivity|]. eexists. split; reflexivity.
Qed.

(** ** The phone helper *)

Lemma replace_all_filter (re : N -> bool) (s : jsstring) :
  replace_all re s = List.filter (fun c => negb (re c)) s.
Proof.
  induction s as [|c s IH]; simpl; [done|].
  destruct (re c); simpl; by rewrite IH.
Qed.

Lemma replace_all_sublist (re : N -> bool) (s : jsstring) :
  sublist (replace_all re s) s.
Proof.
  induction s as [|c s IH]; simpl; [constructor|].
  destruct (re c); by constructor.
Qed.

(** C4, as the code has it.  [normalizePhone] keeps every digit and every
    plus sign of its input, wherever the plus sign stands, in their order,
    and drops every other code unit. *)
Theorem normalizePhone_keeps_digits_and_plus (s : jsstring) :
  exists r, normalizePhone (VStr s) = Ok r
    /\ r = List.filter (fun c => is_plus c || is_digit c) s
    /\ sublist r s
    /\ Forall (fun c => is_plus c = true \/ is_digit c = true) r.
Proof.
  exists (replace_all no_plus_ni_digito s). split; [by destruct s|].
  split; [|split].
  - rewrite replace_all_filter. unfold no_plus_ni_digito.
    induction s as [|c s IH]; simpl; [done|].
    rewrite negb_involutive. by rewrite IH.
  - apply replace_all_sublist.
  - induction s as [|c s IH]; simpl; [constructor|].
    unfold no_plus_ni_digito at 1.
    destruct (is_plus c) eqn:Ep; simpl; [constructor; auto|].
    destruct (is_digit c) eqn:Ed; simpl; [constructor; auto|done].
Qed.

(** C4 as the specification states it fails: a plus sign that is not
    leading is kept. *)
Lemma normalizePhone_keeps_inner_plus :
  normalizePhone (VStr (str "1+2")) = Ok (str "1+2")
  /\ solo_mas_inicial (str "1+2") = false.
Proof. split; reflexivity. Qed.

(** ** The mutation operations *)

Lemma find_clase_None (classId : jsstring) (cs : list Clase) :
  find_clase classId cs = None <->
  Forall (fun c => c_id c <> classId) cs.
Proof.
  unfold find_clase. induction cs as [|c cs IH]; simpl.
  - split; [constructor|done].
  - case_bool_decide as Hc.
    + split; [done|]. intros H. by inversion H.
    + rewrite IH. split; [by constructor|]. intros H. by inversion H.
Qed.

Lemma find_clase_hay (classId : jsstring) (st : State) :
  hay_clase classId st = true <-> exists c, find_clase classId (clases st) = Some c.
Proof.
  unfold hay_clase, find_clase. induction (clases st) as [|c cs IH]; simpl.
  - split; [done|]. by intros [c Hc].
  - case_bool_decide; simpl; [|done]. split; eauto.
Qed.

(** What [changeDocente] does when no class has the id: everything is as
    before but [updatedAt], which is refreshed all the same. *)
Lemma changeDocente_not_found (now classId docente : jsstring) (st : State) :
  hay_clase classId st = false ->
  changeDocente now classId docente st = set_updatedAt now st.
Proof.
  intros H. unfold changeDocente.
  destruct (find_clase classId (clases st)) as [c|] eqn:E; [|done].
  assert (hay_clase classId st = true) by (apply find_clase_hay; eauto).
  congruence.
Qed.

(** Its siblings return the clone untouched in that case. *)
Lemma addAlumno_not_found (now classId : jsstring) (a : Alumno) (st : State) :
  hay_clase classId st = false -> addAlumno now classId a st = st.
Proof.
  intros H. unfold addAlumno.
  destruct (find_clase classId (clases st)) as [c|] eqn:E; [|done].
  assert (hay_clase classId st = true) by (apply find_clase_hay; eauto).
  congruence.
Qed.

Lemma removeAlumno_not_found (now classId alumnoId : jsstring) (st : State) :
  hay_clase classId st = false -> removeAlumno now classId alumnoId st = st.
Proof.
  intros H. unfold removeAlumno.
  destruct (find_clase classId (clases st)) as [c|] eqn:E; [|done].
  assert (hay_clase classId st = true) by (apply find_clase_hay; eauto).
  congruence.
Qed.

(** C3: the specification is right about the intent, the code is not.
    With no class of the given id, [changeDocente] still refreshes
    [updatedAt] (and changes nothing else), where [addAlumno] and
    [removeAlumno] return the document as it was. *)
Theorem changeDocente_missing_class_refreshes_updatedAt :
  hay_clase (str "coro") estado_inicial = false
  /\ changeDocente (str "2025-08-17T09:00:00.000Z") (str "coro") (str "Marta")
       estado_inicial
     = set_updatedAt (str "2025-08-17T09:00:00.000Z") estado_inicial
  /\ updatedAt (changeDocente (str "2025-08-17T09:00:00.000Z") (str "coro")
                  (str "Marta") estado_inicial)
     <> updatedAt estado_inicial
  /\ addAlumno (str "2025-08-17T09:00:00.000Z") (str "coro") ana estado_inicial
     = estado_inicial
  /\ removeAlumno (str "2025-08-17T09:00:00.000Z") (str "coro") (str "a1")
       estado_inicial
     = estado_inicial.
Proof.
  assert (H : hay_clase (str "coro") estado_inicial = false) by reflexivity.
  split; [done|]. split; [by apply changeDocente_not_found|].
  split; [|split].
  - rewrite changeDocente_not_found by done. by vm_compute.
  - by apply addAlumno_not_found.
  - by apply removeAlumno_not_found.
Qed.

Lemma find_cambiar_clase (classId : jsstring) (f : Clase -> Clase)
    (cs : list Clase) (c : Clase) :
  (forall c, c_id (f c) = c_id c) ->
  find_clase classId cs = Some c ->
  find_clase classId (cambiar_clase classId f cs) = Some (f c).
Proof.
  intros Hf. unfold find_clase. induction cs as [|c0 cs IH]; simpl; [done|].
  case_bool_decide as H0; simpl.
  - intros [= ->]. by rewrite Hf, bool_decide_true.
  - intros H. rewrite bool_decide_false by done. by apply IH.
Qed.

Lemma registro_de_borrar (asis : asistencias_t) (classId alumnoId f c a : jsstring) :
  registro_de (borrar_registro classId alumnoId <$> asis) f c a =
  if decide (c = classId /\ a = alumnoId) then None else registro_de asis f c a.
Proof.
  unfold registro_de. rewrite lookup_fmap.
  destruct (asis !! f) as [porClase|]; simpl; [|by case_decide].
  unfold borrar_registro.
  destruct (porClase !! classId) as [registros|] eqn:Ec.
  - destruct (registros !! alumnoId) as [r|] eqn:Ea.
    + destruct (decide (c = classId)) as [->|Hc].
      * rewrite lookup_insert_eq, Ec.
        destruct (decide (a = alumnoId)) as [->|Ha].
        -- rewrite lookup_delete_eq. by rewrite decide_True.
        -- rewrite lookup_delete_ne by done. rewrite decide_False; [done|].
           by intros [_ ?].
      * rewrite lookup_insert_ne by done. rewrite decide_False; [done|].
        by intros [? _].
    + case_decide as H; [|done]. destruct H as [-> ->]. by rewrite Ec.
  - case_decide as H; [|done]. destruct H as [-> ->]. by rewrite Ec.
Qed.

(** C5, as the code has it.  When the document has a class with the id,
    [removeAlumno] leaves no attendance record under (classId, alumnoId) on
    any date and keeps every other record; the roster of that class is the
    old one without the persons of that id; [updatedAt] is refreshed. *)
Theorem removeAlumno_cascades (now classId alumnoId : jsstring) (st : State) :
  hay_clase classId st = true ->
  let st' := removeAlumno now classId alumnoId st in
  (forall f, registro_de (asistencias st') f classId alumnoId = None)
  /\ (forall f c a, (c, a) <> (classId, alumnoId) ->
        registro_de (asistencias st') f c a = registro_de (asistencias st) f c a)
  /\ (exists c c', find_clase classId (clases st) = Some c
        /\ find_clase classId (clases st') = Some c'
        /\ c_alumnos c' = List.filter (fun a => negb (bool_decide (a_id a = alumnoId)))
                             (c_alumnos c)
        /\ Forall (fun a => a_id a <> alumnoId) (c_alumnos c'))
  /\ updatedAt st' = now.
Proof.
  intros [c Hc]%find_clase_hay. simpl. unfold removeAlumno. rewrite Hc. simpl.
  split; [|split; [|split]].
  - intros f. rewrite registro_de_borrar. by rewrite decide_True.
  - intros f c0 a Hne. rewrite registro_de_borrar. rewrite decide_False; [done|].
    intros [-> ->]. done.
  - eexists c, _. split; [done|]. split; [by apply find_cambiar_clase|].
    split; [done|]. simpl. apply Forall_forall.
    intros a Ha%list_elem_of_In. apply filter_In in Ha as [_ Ha].
    apply negb_true_iff in Ha. by apply bool_decide_eq_false in Ha.
  - done.
Qed.

Lemma removeAlumno_cascades_witness :
  hay_clase (str "logos") estado_ana = true
  /\ registro_de (asistencias estado_ana) (str "2025-08-10") (str "logos") (str "a1")
       = Some {| presente := Some true; nota := None |}
  /\ forall f,
       registro_de
         (asistencias (removeAlumno (str "2025-08-17T09:00:00.000Z") (str "logos")
                         (str "a1") estado_ana))
         f (str "logos") (str "a1") = None.
Proof.
  split; [reflexivity|]. split; [by vm_compute|].
  apply (removeAlumno_cascades (str "2025-08-17T09:00:00.000Z") (str "logos")
           (str "a1") estado_ana).
  reflexivity.
Defined.

(** C5 as the specification states it fails: when no class has the id,
    [removeAlumno] returns the document as it was, records included. *)
Lemma removeAlumno_missing_class_keeps_records :
  registro_de
    (asistencias (removeAlumno (str "2025-08-17T09:00:00.000Z") (str "coro")
                    (str "a1") estado_huerfano))
    (str "2025-08-10") (str "coro") (str "a1")
  = Some {| presente := Some true; nota := None |}.
Proof. by vm_compute. Qed.

(** ** Start-up reconciliation *)

(** A well formed document is left as it is by the normalizer, whatever
    the time. *)
Lemma shaped_fixpoint (now : jsstring) (d : value) :
  shaped d = true -> ensureStateShape now d = Ok d.
Proof.
  unfold shaped. intros H.
  apply andb_prop in H as [H Hu]. apply andb_prop in H as [H Hv].
  apply andb_prop in H as [H Ha]. apply andb_prop in H as [Hd Hc].
  destruct (es_objeto_props d Hd) as [ps Hps].
  rewrite !(prop_of_props d ps _ Hps) in *.
  destruct (own_get (str "clases") ps) as [c|] eqn:Ec; [|done]. simpl in Hc.
  apply andb_prop in Ha as [Ha1 Ha2].
  eapply (ensure_fixpoint now d c ps); try done.
  repeat split; left.
  - rewrite Ec. simpl. by rewrite (clases_ok_isArray _ Hc).
  - by rewrite Ha1, Ha2.
  - by rewrite Hv.
  - by rewrite Hu.
Qed.

Lemma shaped_get (d : value) (k : jsstring) :
  shaped d = true -> get d k = Ok (prop d k).
Proof.
  unfold shaped. intros H. repeat (apply andb_prop in H as [H _]).
  unfold prop. by destruct d.
Qed.

Lemma shaped_updatedAt (d : value) :
  shaped d = true ->
  js_or (prop d (str "updatedAt")) (VNum 0) = prop d (str "updatedAt").
Proof.
  unfold shaped, js_or. intros H.
  destruct (andb_prop _ _ H) as [_ Hu]. by rewrite Hu.
Qed.

Lemma newer_strings (gt_coerced : value -> value -> bool)
    (remote local : value) (ur ul : jsstring) :
  shaped remote = true -> shaped local = true ->
  prop remote (str "updatedAt") = VStr ur ->
  prop local (str "updatedAt") = VStr ul ->
  newer gt_coerced remote local = Ok (if str_ltb ul ur then remote else local).
Proof.
  intros Hr Hl Hur Hul. unfold newer.
  rewrite (shaped_get _ _ Hr), (shaped_get _ _ Hl). simpl.
  rewrite (shaped_updatedAt _ Hr), (shaped_updatedAt _ Hl), Hur, Hul. done.
Qed.

(** C7. For normalized documents whose [updatedAt] are strings, the remote
    document becomes the state when its [updatedAt] is greater than the
    local one in the order of code units, the local document otherwise. *)
Theorem reconciliar_picks_newer (gt_coerced : value -> value -> bool)
    (now : jsstring) (remote local : value) (ur ul : jsstring) :
  shaped remote = true -> shaped local = true ->
  prop remote (str "updatedAt") = VStr ur ->
  prop local (str "updatedAt") = VStr ul ->
  reconciliar gt_coerced now remote local =
  Ok (if str_ltb ul ur then remote else local).
Proof.
  intros Hr Hl Hur Hul. unfold reconciliar.
  rewrite (newer_strings gt_coerced remote local ur ul Hr Hl Hur Hul). simpl.
  destruct (str_ltb ul ur); by apply shaped_fixpoint.
Qed.

Lemma reconciliar_picks_newer_witness :
  shaped (doc_at (str "2025-01-02T00:00:00Z")) = true
  /\ shaped (doc_at (str "2025-01-01T00:00:00Z")) = true
  /\ reconciliar (fun _ _ => false) (str "2025-01-03T00:00:00Z")
       (doc_at (str "2025-01-02T00:00:00Z")) (doc_at (str "2025-01-01T00:00:00Z"))
     = Ok (doc_at (str "2025-01-02T00:00:00Z")).
Proof.
  split; [reflexivity|]. split; [reflexivity|].
  apply (reconciliar_picks_newer (fun _ _ => false) (str "2025-01-03T00:00:00Z")
           (doc_at (str "2025-01-02T00:00:00Z")) (doc_at (str "2025-01-01T00:00:00Z"))
           (str "2025-01-02T00:00:00Z") (str "2025-01-01T00:00:00Z"));
    reflexivity.
Defined.

Lemma clases_ok_to_value (cs : list Clase) :
  forallb clase_ok (clase_to_value <$> cs) = true.
Proof.
  induction cs as [|c cs IH]; [done|].
  rewrite fmap_cons. simpl. by rewrite IH.
Qed.

(** A typed document with a version other than 0 and a time stamp is a well
    formed value. *)
Lemma to_value_shaped (st : State) :
  version st <> 0 -> updatedAt st <> [] -> shaped (to_value st) = true.
Proof.
  intros Hv Hu. unfold shaped.
  assert (Hc : prop (to_value st) (str "clases")
               = VArr (clase_to_value <$> clases st) []) by reflexivity.
  assert (Ha : es_objeto (prop (to_value st) (str "asistencias")) = true)
    by reflexivity.
  assert (Hve : prop (to_value st) (str "version") = VNum (version st))
    by reflexivity.
  assert (Hup : prop (to_value st) (str "updatedAt") = VStr (updatedAt st))
    by reflexivity.
  rewrite Hc, Ha, Hve, Hup. simpl. rewrite clases_ok_to_value. simpl.
  apply Z.eqb_neq in Hv. rewrite Hv. by destruct (updatedAt st).
Qed.

(** Reconciliation of two typed documents. *)
Corollary reconciliar_typed (gt_coerced : value -> value -> bool) (now : jsstring)
    (remote local : State) :
  version remote <> 0 -> updatedAt remote <> [] ->
  version local <> 0 -> updatedAt local <> [] ->
  reconciliar gt_coerced now (to_value remote) (to_value local)
  = Ok (to_value (if str_ltb (updatedAt local) (updatedAt remote)
                  then remote else local)).
Proof.
  intros Hvr Hur Hvl Hul.
  pose proof (to_value_shaped remote Hvr Hur) as Hr.
  pose proof (to_value_shaped local Hvl Hul) as Hl.
  unfold reconciliar.
  rewrite (newer_strings gt_coerced (to_value remote) (to_value local)
             (updatedAt remote) (updatedAt local) Hr Hl); [|reflexivity..].
  simpl. destruct (str_ltb _ _); by apply shaped_fixpoint.
Qed.

(** C10. With equal [updatedAt] the local document becomes the state; the
    remote one is taken only when its [updatedAt] is strictly greater. *)
Theorem reconciliar_tie_keeps_local (gt_coerced : value -> value -> bool)
    (now : jsstring) (remote local : value) (ur ul : jsstring) :
  shaped remote = true -> shaped local = true ->
  prop remote (str "updatedAt") = VStr ur ->
  prop local (str "updatedAt") = VStr ul ->
  (ur = ul -> reconciliar gt_coerced now remote local = Ok local)
  /\ (reconciliar gt_coerced now remote local = Ok remote -> remote <> local ->
      str_compare ur ul = Gt).
Proof.
  intros Hr Hl Hur Hul.
  unfold reconciliar.
  rewrite (newer_strings gt_coerced remote local ur ul Hr Hl Hur Hul). simpl.
  unfold str_ltb. split.
  - intros ->. rewrite str_compare_refl. by apply shaped_fixpoint.
  - rewrite (str_compare_antisym ur ul).
    destruct (str_compare ur ul); simpl; [| |done];
      rewrite (shaped_fixpoint now local Hl); intros [= E] Hne; congruence.
Qed.

Lemma reconciliar_tie_keeps_local_witness :
  shaped (VObj (own_set (str "from") (VStr (str "remote"))
                  [(str "version", VNum 1);
                   (str "updatedAt", VStr (str "2025-01-01T00:00:00Z"));
                   (str "clases", VArr [] []); (str "asistencias", VObj [])])) = true
  /\ reconciliar (fun _ _ => false) (str "2025-01-03T00:00:00Z")
       (VObj (own_set (str "from") (VStr (str "remote"))
                [(str "version", VNum 1);
                 (str "updatedAt", VStr (str "2025-01-01T00:00:00Z"));
                 (str "clases", VArr [] []); (str "asistencias", VObj [])]))
       (doc_at (str "2025-01-01T00:00:00Z"))
     = Ok (doc_at (str "2025-01-01T00:00:00Z")).
Proof.
  split; [reflexivity|].
  apply (reconciliar_tie_keeps_local (fun _ _ => false) (str "2025-01-03T00:00:00Z")
           (VObj (own_set (str "from") (VStr (str "remote"))
                    [(str "version", VNum 1);
                     (str "updatedAt", VStr (str "2025-01-01T00:00:00Z"));
                     (str "clases", VArr [] []); (str "asistencias", VObj [])]))
           (doc_at (str "2025-01-01T00:00:00Z"))
           (str "2025-01-01T00:00:00Z") (str "2025-01-01T00:00:00Z"));
    reflexivity.
Defined.

(** ** Sorting *)

Section sort_facts.
Context {A : Type}.
Implicit Types (cmp : A -> A -> Z) (l : list A).

Lemma sort_insert_perm cmp x l : sort_insert cmp x l ≡ₚ x :: l.
Proof.
  induction l as [|y l IH]; simpl; [done|].
  destruct (cmp x y <=? 0); [done|].
  rewrite IH. apply Permutation_swap.
Qed.

Lemma js_sort_perm cmp l : js_sort cmp l ≡ₚ l.
Proof.
  induction l as [|x l IH]; simpl; [done|].
  by rewrite sort_insert_perm, IH.
Qed.

Lemma sort_insert_ext cmp cmp' x l :
  (forall y, y ∈ l -> (cmp x y <=? 0) = (cmp' x y <=? 0)) ->
  sort_insert cmp x l = sort_insert cmp' x l.
Proof.
  induction l as [|y l IH]; simpl; [done|]. intros H.
  rewrite <- (H y) by left.
  destruct (cmp x y <=? 0); [done|].
  rewrite IH; [done|]. intros z Hz. apply H. by right.
Qed.

(** Two comparators that agree on the elements of a list sort it alike. *)
Lemma js_sort_ext cmp cmp' l :
  (forall a b, a ∈ l -> b ∈ l -> (cmp a b <=? 0) = (cmp' a b <=? 0)) ->
  js_sort cmp l = js_sort cmp' l.
Proof.
  induction l as [|x l IH]; simpl; [done|]. intros H.
  rewrite IH by (intros a b Ha Hb; apply H; by right).
  apply sort_insert_ext. intros y Hy. apply H; [by left|].
  right. by rewrite <- (js_sort_perm cmp' l).
Qed.

Lemma sort_insert_sorted cmp x l :
  (forall a b, cmp a b <= 0 \/ cmp b a <= 0) ->
  (forall a b c, cmp a b <= 0 -> cmp b c <= 0 -> cmp a c <= 0) ->
  StronglySorted (fun a b => cmp a b <= 0) l ->
  StronglySorted (fun a b => cmp a b <= 0) (sort_insert cmp x l).
Proof.
  intros Htot Htrans. induction l as [|y l IH]; simpl; intros Hl.
  - repeat constructor.
  - apply StronglySorted_inv in Hl as [Hl Hy].
    destruct (Z.leb_spec (cmp x y) 0) as [Hxy|Hxy].
    + constructor; [by constructor|]. constructor; [done|].
      eapply Forall_impl; [exact Hy|]. intros z Hz. simpl in Hz. eauto.
    + constructor; [by apply IH|].
      rewrite sort_insert_perm. constructor; [|done].
      destruct (Htot x y); [lia|done].
Qed.

Lemma js_sort_sorted cmp l :
  (forall a b, cmp a b <= 0 \/ cmp b a <= 0) ->
  (forall a b c, cmp a b <= 0 -> cmp b c <= 0 -> cmp a c <= 0) ->
  StronglySorted (fun a b => cmp a b <= 0) (js_sort cmp l).
Proof.
  intros Htot Htrans. induction l as [|x l IH]; simpl; [constructor|].
  by apply sort_insert_sorted.
Qed.
End sort_facts.

Lemma signo_le (a b : jsstring) :
  signo (str_compare a b) <= 0 <-> str_leb a b = true.
Proof. unfold str_leb. destruct (str_compare a b); simpl; split; (done || lia). Qed.

Lemma StronglySorted_weaken {A : Type} (R R' : A -> A -> Prop) (l : list A) :
  (forall a b, a ∈ l -> b ∈ l -> R a b -> R' a b) ->
  StronglySorted R l -> StronglySorted R' l.
Proof.
  induction l as [|x l IH]; intros HR Hl; [constructor|].
  apply StronglySorted_inv in Hl as [Hl Hx]. constructor.
  - apply IH; [|done]. intros a b Ha Hb. apply HR; by right.
  - apply Forall_forall. intros y Hy. apply HR; [by left|by right|].
    rewrite Forall_forall in Hx. by apply Hx.
Qed.

(** Sorting by the order of the code units of a key. *)
Lemma js_sort_by_key {A : Type} (key : A -> jsstring) (l : list A) :
  StronglySorted (fun a b => str_leb (key a) (key b) = true)
    (js_sort (fun a b => signo (str_compare (key a) (key b))) l).
Proof.
  eapply StronglySorted_weaken;
    [|apply (js_sort_sorted (fun a b => signo (str_compare (key a) (key b))))].
  - intros a b _ _ H. by apply signo_le.
  - intros a b. rewrite !signo_le. apply str_leb_total.
  - intros a b c. rewrite !signo_le. apply str_leb_trans.
Qed.

Lemma sort_strings_sorted (l : list jsstring) :
  StronglySorted (fun a b => str_leb a b = true) (sort_strings l).
Proof. apply (js_sort_by_key (fun a => a)). Qed.

Lemma sort_strings_perm (l : list jsstring) : sort_strings l ≡ₚ l.
Proof. apply js_sort_perm. Qed.

(** ** Statistics by date *)

Lemma foldl_insert_lookup {V W : Type} (g : V -> W) (l : list (jsstring * V))
    (m0 : gmap jsstring W) (k : jsstring) :
  NoDup l.*1 ->
  foldl (fun m e => <[e.1 := g e.2]> m) m0 l !! k =
  match (list_to_map l : gmap jsstring V) !! k with
  | Some v => Some (g v)
  | None => m0 !! k
  end.
Proof.
  revert m0. induction l as [|[k' v] l IH]; intros m0 Hnd; simpl; [done|].
  apply NoDup_cons in Hnd as [Hk' Hnd]. rewrite (IH _ Hnd).
  destruct (decide (k' = k)) as [->|Hne].
  - rewrite lookup_insert_eq.
    rewrite (not_elem_of_list_to_map_1 l k Hk'). by rewrite lookup_insert_eq.
  - rewrite !lookup_insert_ne by done. done.
Qed.

Lemma serie_map_fmap (asis : asistencias_t) :
  serie_map asis = contar_presentes <$> asis.
Proof.
  apply map_eq. intros k. unfold serie_map.
  rewrite (foldl_insert_lookup contar_presentes) by apply NoDup_fst_map_to_list.
  rewrite list_to_map_to_list, lookup_fmap, lookup_empty.
  by destruct (asis !! k).
Qed.

Lemma foldl_count {B : Type} (P : B -> Prop) `{forall x, Decision (P x)}
    (p : B -> bool) (l : list B) (n0 : nat) :
  (forall x, p x = true <-> P x) ->
  foldl (fun n x => if p x then S n else n) n0 l = (n0 + length (filter P l))%nat.
Proof.
  intros Hp. revert n0. induction l as [|x l IH]; intros n0; simpl; [lia|].
  rewrite IH, filter_cons. destruct (p x) eqn:E.
  - rewrite decide_True by (by apply Hp). simpl. lia.
  - rewrite decide_False; [done|]. rewrite <- Hp. congruence.
Qed.

Lemma contar_presentes_aplanar (porClase : porClase_t) :
  contar_presentes porClase =
  length (filter (fun kr : (jsstring * jsstring) * Registro => presente kr.2 = Some true)
            (aplanar porClase)).
Proof.
  unfold contar_presentes, aplanar.
  generalize (map_to_list porClase). intros L.
  change (length (filter _ (L ≫= _)))
    with (0 + length (filter (fun kr :  (jsstring * jsstring) * Registro =>
                                presente kr.2 = Some true)
                        (L ≫= (fun cr => (fun ar => ((cr.1, ar.1), ar.2))
                                           <$> map_to_list cr.2))))%nat.
  generalize 0%nat. induction L as [|cr L IH]; intros n0; csimpl; [lia|].
  rewrite IH. rewrite filter_app, length_app.
  rewrite (foldl_count (fun ar : jsstring * Registro => presente ar.2 = Some true)).
  - assert (Hlen : forall (l : list (jsstring * Registro)),
      length (filter (fun ar : jsstring * Registro => presente ar.2 = Some true) l) =
      length (filter (fun kr : (jsstring * jsstring) * Registro =>
                        presente kr.2 = Some true)
                ((fun ar => ((cr.1, ar.1), ar.2)) <$> l))).
    { induction l as [|ar l IHl]; simpl; [done|].
      rewrite !filter_cons. simpl. case_decide; simpl; by rewrite IHl. }
    rewrite Hlen. lia.
  - intros [a r]. simpl. destruct (presente r) as [[]|]; split; done.
Qed.

Lemma elem_of_aplanar (porClase : porClase_t) (c a : jsstring) (r : Registro) :
  ((c, a), r) ∈ aplanar porClase <->
  exists registros, porClase !! c = Some registros /\ registros !! a = Some r.
Proof.
  unfold aplanar. rewrite list_elem_of_bind. split.
  - intros ([c' regs] & Hin & Hc). simpl in Hin.
    apply list_elem_of_fmap in Hin as ([a' r'] & [= -> -> ->] & Ha).
    apply elem_of_map_to_list in Hc, Ha. eauto.
  - intros (regs & Hc & Ha). exists (c, regs). split.
    + simpl. apply list_elem_of_fmap. exists (a, r). split; [done|].
      by apply elem_of_map_to_list.
    + by apply elem_of_map_to_list.
Qed.

Lemma NoDup_aplanar (porClase : porClase_t) : NoDup (aplanar porClase).
Proof.
  unfold aplanar. apply NoDup_bind.
  - intros [c1 r1] [c2 r2] [[c a] r] H1 H2 Hy1 Hy2. simpl in *.
    apply list_elem_of_fmap in Hy1 as ([a1 x1] & [= -> -> ->] & _).
    apply list_elem_of_fmap in Hy2 as ([a2 x2] & [= -> -> ->] & _).
    apply elem_of_map_to_list in H1, H2. congruence.
  - intros [c regs] _. simpl. apply NoDup_fmap_2_strong; [|apply NoDup_map_to_list].
    intros [a1 x1] [a2 x2] _ _ [= -> ->]. done.
  - apply NoDup_map_to_list.
Qed.

(** The two loops count what the specification asks for. *)
Lemma contar_presentes_spec (porClase : porClase_t) :
  contar_presentes porClase = num_presentes porClase.
Proof.
  rewrite contar_presentes_aplanar. unfold num_presentes.
  rewrite <- length_map_to_list. apply Permutation_length.
  apply NoDup_Permutation.
  - apply NoDup_filter, NoDup_aplanar.
  - apply NoDup_map_to_list.
  - intros [[c a] r]. rewrite list_elem_of_filter, elem_of_aplanar.
    rewrite elem_of_map_to_list, map_lookup_filter_Some, lookup_map_uncurry.
    simpl. split.
    + intros (Hp & regs & Hc & Ha). split; [|done]. by rewrite Hc.
    + intros (Hl & Hp). split; [done|].
      destruct (porClase !! c) as [regs|]; [|done]. eauto.
Qed.

Lemma leb_of_sgn (x : Z) (c : comparison) :
  Z.sgn x = signo c -> (x <=? 0) = (signo c <=? 0).
Proof.
  intros H. destruct (Z.leb_spec x 0), (Z.leb_spec (signo c) 0); try done.
  - destruct c; simpl in *; lia.
  - destruct c; simpl in *; lia.
Qed.

Lemma sorted_strict {A : Type} (key : A -> jsstring) (l : list A) :
  NoDup (key <$> l) ->
  StronglySorted (fun a b => str_leb (key a) (key b) = true) l ->
  StronglySorted (fun a b => str_compare (key a) (key b) = Lt) l.
Proof.
  induction l as [|x l IH]; intros Hnd Hl; [constructor|].
  rewrite fmap_cons in Hnd. apply NoDup_cons in Hnd as [Hx Hnd].
  apply StronglySorted_inv in Hl as [Hl Hle]. constructor; [by apply IH|].
  rewrite Forall_forall in Hle. apply Forall_forall. intros y Hy.
  specialize (Hle y Hy). unfold str_leb in Hle.
  destruct (str_compare (key x) (key y)) eqn:E; try done.
  apply str_compare_eq in E. exfalso. apply Hx. rewrite E.
  apply list_elem_of_fmap. eauto.
Qed.

Lemma serie_map_entries (asis : asistencias_t) (f : jsstring) (n : nat) :
  {| fecha := f; total := n |}
    ∈ ((fun e => {| fecha := e.1; total := e.2 |}) <$> map_to_list (serie_map asis))
  <-> exists porClase, asis !! f = Some porClase /\ n = num_presentes porClase.
Proof.
  rewrite list_elem_of_fmap, serie_map_fmap. split.
  - intros ([f' n'] & [= <- <-] & Hin). apply elem_of_map_to_list in Hin.
    rewrite lookup_fmap in Hin. destruct (asis !! f) as [pc|]; [|done].
    injection Hin as <-. exists pc. by rewrite contar_presentes_spec.
  - intros (pc & Hf & ->). exists (f, num_presentes pc). split; [done|].
    apply elem_of_map_to_list. rewrite lookup_fmap, Hf. simpl.
    by rewrite contar_presentes_spec.
Qed.

Lemma fechas_iso_spec (asis : asistencias_t) (f : jsstring) :
  fechas_iso asis = true -> is_Some (asis !! f) -> es_fecha f = true.
Proof.
  unfold fechas_iso. rewrite forallb_forall. intros H [x Hx]. apply H.
  apply list_elem_of_In, list_elem_of_fmap. exists (f, x). split; [done|].
  by apply elem_of_map_to_list.
Qed.

Section by_date.
Variable localeCompare : jsstring -> jsstring -> Z.

(** On calendar dates written [YYYY-MM-DD] the order of the locale is the
    order of the code units. *)
Hypothesis localeCompare_fechas : forall a b,
  es_fecha a = true -> es_fecha b = true ->
  Z.sgn (localeCompare a b) = signo (str_compare a b).

Lemma serie_by_code_units (st : State) :
  fechas_iso (asistencias st) = true ->
  serie localeCompare st =
  js_sort (fun a b => signo (str_compare (fecha a) (fecha b)))
    ((fun e => {| fecha := e.1; total := e.2 |})
       <$> map_to_list (serie_map (asistencias st))).
Proof using localeCompare_fechas.
  intros Hiso. unfold serie. apply js_sort_ext.
  assert (Hf : forall p,
    p ∈ ((fun e => {| fecha := e.1; total := e.2 |})
           <$> map_to_list (serie_map (asistencias st))) ->
    es_fecha (fecha p) = true).
  { intros [f n] Hp. apply serie_map_entries in Hp as (pc & Hpc & _).
    simpl. apply (fechas_iso_spec _ _ Hiso). by rewrite Hpc. }
  intros a b Ha Hb. apply leb_of_sgn, localeCompare_fechas; by apply Hf.
Qed.

(** C8. When the date keys are ISO calendar dates, the series has exactly
    one point for every date key of [asistencias] (and no other point); its
    total is the number of records of that date, over all classes and
    persons, whose [presente] is true; and the points are in strictly
    ascending order of their date strings, compared by code units. *)
Theorem serie_one_point_per_date_sorted (st : State) :
  fechas_iso (asistencias st) = true ->
  (forall f n, {| fecha := f; total := n |} ∈ serie localeCompare st <->
     exists porClase, asistencias st !! f = Some porClase
                      /\ n = num_presentes porClase)
  /\ StronglySorted (fun a b => str_compare (fecha a) (fecha b) = Lt)
       (serie localeCompare st)
  /\ length (serie localeCompare st) = size (asistencias st).
Proof using localeCompare_fechas.
  intros Hiso. rewrite (serie_by_code_units st Hiso).
  set (L := (fun e => {| fecha := e.1; total := e.2 |})
              <$> map_to_list (serie_map (asistencias st))).
  set (cmp := fun a b : Punto => signo (str_compare (fecha a) (fecha b))).
  pose proof (js_sort_perm cmp L) as Hperm.
  split; [|split].
  - intros f n. rewrite Hperm. apply serie_map_entries.
  - apply (sorted_strict fecha); [|apply (js_sort_by_key fecha)].
    rewrite Hperm. unfold L. rewrite <- list_fmap_compose.
    apply (NoDup_fst_map_to_list (serie_map (asistencias st))).
  - rewrite Hperm. unfold L.
    rewrite length_fmap, length_map_to_list, serie_map_fmap.
    apply map_size_fmap.
Qed.
End by_date.

Example serie_dos_fechas :
  serie localeCompare_c estado_dos_fechas =
  [ {| fecha := str "2025-01-05"; total := 1 |};
    {| fecha := str "2025-01-12"; total := 0 |} ].
Proof. by vm_compute. Qed.

Lemma serie_one_point_per_date_sorted_witness :
  fechas_iso (asistencias estado_dos_fechas) = true
  /\ StronglySorted (fun a b => str_compare (fecha a) (fecha b) = Lt)
       (serie localeCompare_c estado_dos_fechas)
  /\ length (serie localeCompare_c estado_dos_fechas)
     = size (asistencias estado_dos_fechas).
Proof.
  split; [by vm_compute|].
  apply (serie_one_point_per_date_sorted localeCompare_c).
  - intros a b _ _. unfold localeCompare_c. by destruct (str_compare a b).
  - by vm_compute.
Defined.

(** ** Statistics by person *)

Example racha_alterna (lc : jsstring -> jsstring -> Z) (rp : nat -> nat -> Z) :
  currentAbsentStreak <$> personas lc rp estado_alterno = [1%nat]
  /\ presentes <$> personas lc rp estado_alterno = [2%nat]
  /\ semanas <$> personas lc rp estado_alterno = [4%nat].
Proof. by vm_compute. Qed.

(** The loop once an attendance has been met: a further attendance that
    comes right after another one puts the streak back to 0; nothing else
    changes it. *)
Lemma recorrer_despues (asis : asistencias_t) (p : Persona) (desc : list jsstring)
    (c s k : nat) (g : jsstring) :
  g <> [] ->
  ac_currentAbsentStreak
    (foldl (paso asis p)
       {| ac_presentes := c; ac_lastAttendance := Some g;
          ac_currentAbsentStreak := s; ac_running := k |} desc)
  = if seguidas asis (p_classId p) (p_alumnoId p) (k =? 0)%nat desc
    then 0%nat else s.
Proof.
  intros Hg. revert c s k. induction desc as [|f desc IH]; intros c s k; simpl.
  - done.
  - unfold paso at 2. destruct g as [|g0 g]; [done|]. simpl.
    destruct (es_presente (registro_de asis f (p_classId p) (p_alumnoId p))).
    + rewrite IH. simpl.
      by destruct (k =? 0)%nat, (seguidas asis _ _ true desc).
    + by rewrite IH.
Qed.

(** The loop before any attendance has been met: it counts. *)
Lemma recorrer_antes (asis : asistencias_t) (p : Persona) (desc : list jsstring)
    (n : nat) :
  Forall (fun f => f <> []) desc ->
  ac_currentAbsentStreak
    (foldl (paso asis p)
       {| ac_presentes := 0; ac_lastAttendance := None;
          ac_currentAbsentStreak := n; ac_running := n |} desc)
  = if seguidas asis (p_classId p) (p_alumnoId p) false desc then 0%nat
    else (n + racha_spec asis (p_classId p) (p_alumnoId p) desc)%nat.
Proof.
  intros Hne. revert n. induction Hne as [|f desc Hf Hne IH]; intros n; simpl.
  - lia.
  - unfold paso at 2. simpl.
    destruct (es_presente (registro_de asis f (p_classId p) (p_alumnoId p))).
    + rewrite recorrer_despues by done. simpl.
      destruct (seguidas asis (p_classId p) (p_alumnoId p) true desc); [done|].
      destruct n; simpl; lia.
    + rewrite IH.
      destruct (seguidas asis (p_classId p) (p_alumnoId p) false desc); [done|].
      lia.
Qed.

(** What the loop of [StatsByPerson] computes: the streak of the
    specification, unless two attended dates follow one another, in which
    case 0. *)
Lemma recorrer_currentAbsentStreak (asis : asistencias_t) (p : Persona)
    (fechas : list jsstring) :
  Forall (fun f => f <> []) fechas ->
  ac_currentAbsentStreak (recorrer asis p fechas)
  = if seguidas asis (p_classId p) (p_alumnoId p) false (reverse fechas)
    then 0%nat
    else racha_spec asis (p_classId p) (p_alumnoId p) (reverse fechas).
Proof.
  intros Hne. unfold recorrer.
  rewrite (recorrer_antes asis p (reverse fechas) 0); [done|].
  by apply Forall_reverse.
Qed.

(** A person who was never present has a streak of all the dates. *)
Lemma recorrer_never_present (asis : asistencias_t) (p : Persona)
    (fechas : list jsstring) :
  Forall (fun f => f <> []) fechas ->
  Forall (fun f => es_presente (registro_de asis f (p_classId p) (p_alumnoId p)) = false)
    fechas ->
  ac_currentAbsentStreak (recorrer asis p fechas) = length fechas.
Proof.
  intros Hne Hnp. rewrite recorrer_currentAbsentStreak by done.
  rewrite <- (length_reverse fechas). apply Forall_reverse in Hnp.
  assert (H : seguidas asis (p_classId p) (p_alumnoId p) false (reverse fechas) = false
              /\ racha_spec asis (p_classId p) (p_alumnoId p) (reverse fechas)
                 = length (reverse fechas)).
  { induction Hnp as [|f desc Hf Hnp IH]; simpl; [done|].
    rewrite Hf. destruct IH as [-> ->]. done. }
  destruct H as [-> ->]. done.
Qed.

(** C1: the specification is right about the intent, the code is not.  Ana
    was present on 2025-08-03 and 2025-08-10 and absent on 2025-08-17, the
    most recent date: one date lies before her last attendance, yet the
    loop, meeting a second attendance right after the first, puts
    [currentAbsentStreak] back to 0. *)
Theorem currentAbsentStreak_reset_by_second_attendance
    (lc : jsstring -> jsstring -> Z) (rp : nat -> nat -> Z) :
  fechas_de (asistencias estado_racha)
    = [str "2025-08-03"; str "2025-08-10"; str "2025-08-17"]
  /\ racha_spec (asistencias estado_racha) (str "logos") (str "a1")
       (reverse (fechas_de (asistencias estado_racha))) = 1%nat
  /\ currentAbsentStreak <$> personas lc rp estado_racha = [0%nat]
  /\ lastAttendance <$> personas lc rp estado_racha = [Some (str "2025-08-10")].
Proof. by vm_compute. Qed.

Lemma own_set_fresh {V : Type} (k : jsstring) (v : V) (idx : list (jsstring * V)) :
  k ∉ idx.*1 -> own_set k v idx = idx ++ [(k, v)].
Proof.
  induction idx as [|[k' v'] idx IH]; simpl; [done|].
  rewrite not_elem_of_cons. intros [Hne Hk].
  rewrite decide_False by done. by rewrite IH.
Qed.

Lemma indexar_roster (c : Clase) (als : list Alumno) (idx : list (jsstring * Persona)) :
  NoDup (idx ++ ((fun a => (a_id a, persona_de c a)) <$> als)).*1 ->
  foldl (fun idx a => own_set (a_id a) (persona_de c a) idx) idx als
  = idx ++ ((fun a => (a_id a, persona_de c a)) <$> als).
Proof.
  revert idx. induction als as [|a als IH]; intros idx Hnd; simpl.
  - by rewrite app_nil_r.
  - rewrite fmap_cons, cons_middle, app_assoc in Hnd.
    rewrite own_set_fresh.
    + rewrite (IH _ Hnd). by rewrite <- app_assoc.
    + rewrite !fmap_app in Hnd. apply NoDup_app in Hnd as [Hnd _].
      apply NoDup_app in Hnd as (_ & Hd & _). intros Hin.
      apply (Hd _ Hin). simpl. by left.
Qed.

(** When no two persons of the document share an id, the index holds every
    person of every roster. *)
Lemma indexar_unique (cs : list Clase) :
  NoDup (entradas cs).*1 -> indexar cs = entradas cs.
Proof.
  unfold indexar, entradas.
  change (cs ≫= _) with ([] ++ (cs ≫= (fun c => (fun a => (a_id a, persona_de c a))
                                                   <$> c_alumnos c))).
  generalize (@nil (jsstring * Persona)).
  induction cs as [|c cs IH]; intros idx Hnd; csimpl in *.
  - by rewrite app_nil_r.
  - rewrite app_assoc in Hnd. rewrite indexar_roster.
    + rewrite (IH _ Hnd). by rewrite <- app_assoc.
    + rewrite fmap_app in Hnd. by apply NoDup_app in Hnd as [Hnd _].
Qed.

(** In that case the output of [StatsByPerson] has one row for each pair
    (class id, person id) of the rosters. *)
Lemma personas_unique_ids (lc : jsstring -> jsstring -> Z) (rp : nat -> nat -> Z)
    (st : State) :
  NoDup (entradas (clases st)).*1 ->
  (fun r => (p_classId (persona r), p_alumnoId (persona r)))
    <$> personas lc rp st ≡ₚ pares (clases st).
Proof.
  intros Hnd. unfold personas. rewrite js_sort_perm, (indexar_unique _ Hnd).
  rewrite <- !list_fmap_compose. unfold entradas, pares.
  clear Hnd. induction (clases st) as [|c cs IH]; csimpl; [done|].
  rewrite fmap_app, IH, <- list_fmap_compose. done.
Qed.

(** C9: the specification is right about the intent, the code is not.
    The index of [StatsByPerson] is keyed by the person id alone: of two
    persons of different classes with the same id, the one indexed last
    replaces the other, and the output has one row for the two of them. *)
Theorem personas_merges_equal_ids_across_classes
    (lc : jsstring -> jsstring -> Z) (rp : nat -> nat -> Z) :
  NoDup (c_id <$> clases estado_homonimos)
  /\ Forall (fun c => NoDup (a_id <$> c_alumnos c)) (clases estado_homonimos)
  /\ pares (clases estado_homonimos)
     = [(str "logos", str "a1"); (str "smart", str "a1")]
  /\ (fun r => (p_classId (persona r), p_alumnoId (persona r), p_nombre (persona r)))
       <$> personas lc rp estado_homonimos
     = [(str "smart", str "a1", str "Beto")].
Proof.
  split; [|split; [|split]].
  - refine (bool_decide_unpack _ _). by vm_compute.
  - refine (bool_decide_unpack _ _). by vm_compute.
  - by vm_compute.
  - by vm_compute.
Qed.

(** * Further properties of the code *)

(** ** The normalizer *)

Lemma normalizar_alumnos_primitive (c : value) :
  es_objeto c = false -> normalizar_alumnos c = TypeError.
Proof. by destruct c. Qed.

Lemma mapM_normalizar_fail (items : list value) :
  forallb es_objeto items = false -> mapM normalizar_alumnos items = TypeError.
Proof.
  induction items as [|c items IH]; simpl; [done|].
  destruct (es_objeto c) eqn:Ec; simpl.
  - intros H. destruct (normalizar_alumnos c); simpl; [|done]. by rewrite IH.
  - intros _. by rewrite normalizar_alumnos_primitive.
Qed.

Lemma fill_asistencias (now : jsstring) (ps : props_t) :
  default VUndefined (own_get (str "asistencias") (fill now ps)) =
  if es_objeto (default VUndefined (own_get (str "asistencias") ps))
  then default VUndefined (own_get (str "asistencias") ps)
  else VObj [].
Proof.
  destruct names_ne as (N1 & N2 & N3 & N4 & N5 & N6). unfold fill.
  rewrite !own_get_fix_ne by congruence. rewrite own_get_fix_eq.
  rewrite own_get_fix_ne by congruence. unfold es_objeto.
  by destruct (truthy _), (typeof_object _).
Qed.

Lemma fill_updatedAt (now : jsstring) (ps : props_t) :
  default VUndefined (own_get (str "updatedAt") (fill now ps)) =
  if truthy (default VUndefined (own_get (str "updatedAt") ps))
  then default VUndefined (own_get (str "updatedAt") ps)
  else VStr now.
Proof.
  destruct names_ne as (N1 & N2 & N3 & N4 & N5 & N6). unfold fill.
  rewrite own_get_fix_eq. rewrite !own_get_fix_ne by congruence.
  by destruct (truthy _).
Qed.

Lemma fill_other (now k : jsstring) (ps : props_t) :
  k <> str "clases" -> k <> str "asistencias" ->
  k <> str "version" -> k <> str "updatedAt" ->
  own_get k (fill now ps) = own_get k ps.
Proof.
  intros H1 H2 H3 H4. unfold fill. by rewrite !own_get_fix_ne by congruence.
Qed.

(** X1. Whatever is not an object (undefined, null, a boolean, a number, a
    string) is replaced by the default document: the five classes, whose
    ids differ from one another and whose rosters are empty arrays, no
    attendance, version 1 and the current time. *)
Theorem ensureStateShape_default_when_not_object (now : jsstring) (s : value) :
  es_objeto s = false ->
  exists d, ensureStateShape now s = Ok d
    /\ prop d (str "clases") = VArr DEFAULT_CLASSES []
    /\ length DEFAULT_CLASSES = 5%nat
    /\ NoDup ((fun c => prop c (str "id")) <$> DEFAULT_CLASSES)
    /\ Forall (fun c => prop c (str "alumnos") = VArr [] []) DEFAULT_CLASSES
    /\ prop d (str "asistencias") = VObj []
    /\ prop d (str "version") = VNum 1
    /\ prop d (str "updatedAt") = VStr now.
Proof.
  intros Hs. rewrite (ensure_not_object now s Hs). eexists. split; [done|].
  split; [reflexivity|]. split; [reflexivity|]. split.
  { vm_compute.
    repeat (apply NoDup_cons_2;
            [rewrite ?not_elem_of_cons; repeat split;
             (discriminate || apply not_elem_of_nil)|]).
    apply NoDup_nil_2. }
  split; [by repeat constructor|]. done.
Qed.

Lemma ensureStateShape_default_when_not_object_witness :
  es_objeto (VStr (str "hola")) = false
  /\ exists d, ensureStateShape (str "2025-08-10T12:00:00.000Z") (VStr (str "hola")) = Ok d
       /\ prop d (str "clases") = VArr DEFAULT_CLASSES [].
Proof.
  split; [reflexivity|].
  destruct (ensureStateShape_default_when_not_object
              (str "2025-08-10T12:00:00.000Z") (VStr (str "hola")) eq_refl)
    as (d & Hd & Hc & _).
  by exists d.
Defined.

(** X2. The normalizer throws exactly when its input is an object (or an
    array) whose [clases] is an array that holds something other than an
    object: [null], a boolean, a number or a string. *)
Theorem ensureStateShape_throws_iff (now : jsstring) (s : value) :
  ensureStateShape now s = TypeError <->
  es_objeto s = true /\ clases_de_objetos s = false.
Proof.
  split.
  - intros Herr. destruct (es_objeto s) eqn:Es.
    + split; [done|]. destruct (clases_de_objetos s) eqn:Ec; [|done].
      destruct (ensure_defined now s Ec) as [d Hd]. congruence.
    + rewrite (ensure_not_object now s Es) in Herr. done.
  - intros [Es Hc]. destruct (es_objeto_props s Es) as [ps Hps].
    rewrite (ensure_object now s ps Hps), fill_clases.
    unfold clases_de_objetos in Hc. rewrite (prop_of_props s ps _ Hps) in Hc.
    destruct (default VUndefined (own_get (str "clases") ps))
      as [| | | | |items cps|]; try done.
    simpl. by rewrite (mapM_normalizar_fail items Hc).
Qed.

(** X3. On an object the normalizer only repairs: every property other than
    the four it looks at keeps its value, and so does each of [asistencias]
    (when it is an object), [updatedAt] (when it is truthy) and [clases]
    (when it is an array of objects whose [alumnos] are arrays). *)
Theorem ensureStateShape_keeps_valid_fields (now : jsstring) (s d : value) :
  es_objeto s = true -> ensureStateShape now s = Ok d ->
  (forall k, k <> str "clases" -> k <> str "asistencias" ->
             k <> str "version" -> k <> str "updatedAt" ->
             prop d k = prop s k)
  /\ (es_objeto (prop s (str "asistencias")) = true ->
      prop d (str "asistencias") = prop s (str "asistencias"))
  /\ (truthy (prop s (str "updatedAt")) = true ->
      prop d (str "updatedAt") = prop s (str "updatedAt"))
  /\ (clases_ok (prop s (str "clases")) = true ->
      prop d (str "clases") = prop s (str "clases")).
Proof.
  intros Es. destruct (es_objeto_props s Es) as [ps Hps].
  rewrite (ensure_object now s ps Hps).
  destruct (forEach normalizar_alumnos _) as [c|] eqn:Ec; simpl; [|done].
  intros [= <-]. destruct names_ne as (N1 & N2 & N3 & _).
  pose proof (obj_props_with_props s ps
                (own_set (str "clases") c (fill now ps)) Hps) as Hd.
  split; [|split; [|split]].
  - intros k K1 K2 K3 K4.
    rewrite (prop_of_props _ _ k Hd), (prop_of_props _ _ k Hps).
    rewrite own_get_set_ne by congruence. by rewrite fill_other.
  - rewrite (prop_of_props _ _ _ Hd), (prop_of_props _ _ _ Hps).
    rewrite own_get_set_ne by congruence. rewrite fill_asistencias.
    by intros ->.
  - rewrite (prop_of_props _ _ _ Hd), (prop_of_props _ _ _ Hps).
    rewrite own_get_set_ne by congruence. rewrite fill_updatedAt.
    by intros ->.
  - rewrite (prop_of_props _ _ _ Hd), (prop_of_props _ _ _ Hps).
    rewrite own_get_set_eq. simpl. intros Hok.
    rewrite fill_clases, (clases_ok_isArray _ Hok) in Ec.
    rewrite (forEach_normalizar_id _ Hok) in Ec. congruence.
Qed.

Lemma ensureStateShape_keeps_valid_fields_witness :
  es_objeto (VObj [(str "autor", VStr (str "Marta"));
                   (str "asistencias", VObj [(str "2025-08-10", VObj [])])]) = true
  /\ exists d,
       ensureStateShape (str "2025-08-10T12:00:00.000Z")
         (VObj [(str "autor", VStr (str "Marta"));
                (str "asistencias", VObj [(str "2025-08-10", VObj [])])]) = Ok d
       /\ prop d (str "autor") = VStr (str "Marta")
       /\ prop d (str "asistencias") = VObj [(str "2025-08-10", VObj [])].
Proof.
  split; [reflexivity|]. eexists. split; [reflexivity|].
  destruct (ensureStateShape_keeps_valid_fields (str "2025-08-10T12:00:00.000Z")
              (VObj [(str "autor", VStr (str "Marta"));
                     (str "asistencias", VObj [(str "2025-08-10", VObj [])])])
              _ eq_refl eq_refl) as (Hk & Ha & _).
  split.
  - rewrite (Hk (str "autor")); [reflexivity|by vm_compute..].
  - rewrite Ha; reflexivity.
Defined.

(** X4. What the normalizer has returned once, it returns unchanged ever
    after, at whatever later time it is called. *)
Theorem ensureStateShape_stable_over_time (now now' : jsstring) (x d : value) :
  now <> [] -> ensureStateShape now x = Ok d -> ensureStateShape now' d = Ok d.
Proof.
  intros Hnow Hd. apply shaped_fixpoint. by apply (ensure_ok_shaped now x).
Qed.

Lemma ensureStateShape_stable_over_time_witness :
  str "2025-08-10T12:00:00.000Z" <> []
  /\ ensureStateShape (str "2026-01-01T00:00:00.000Z")
       (VObj [(str "clases", VArr DEFAULT_CLASSES []); (str "asistencias", VObj []);
              (str "version", VNum 1);
              (str "updatedAt", VStr (str "2025-08-10T12:00:00.000Z"))])
     = Ok (VObj [(str "clases", VArr DEFAULT_CLASSES []); (str "asistencias", VObj []);
                 (str "version", VNum 1);
                 (str "updatedAt", VStr (str "2025-08-10T12:00:00.000Z"))]).
Proof.
  split; [by vm_compute|].
  apply (ensureStateShape_stable_over_time (str "2025-08-10T12:00:00.000Z")
           (str "2026-01-01T00:00:00.000Z") (VObj [])).
  - by vm_compute.
  - reflexivity.
Defined.

(** ** The phone helper *)

Lemma replace_all_idem (re : N -> bool) (s : jsstring) :
  replace_all re (replace_all re s) = replace_all re s.
Proof.
  induction s as [|c s IH]; simpl; [done|].
  destruct (re c) eqn:E; simpl; [done|]. by rewrite E, IH.
Qed.

Lemma replace_all_length (re : N -> bool) (s : jsstring) :
  (length (replace_all re s) <= length s)%nat.
Proof.
  induction s as [|c s IH]; simpl; [done|].
  destruct (re c); simpl; lia.
Qed.

Lemma normalizePhone_string (s : jsstring) :
  normalizePhone (VStr s) = Ok (replace_all no_plus_ni_digito s).
Proof. by destruct s. Qed.

(** X5. Normalizing a phone a second time changes nothing, and the result
    is never longer than the text it comes from. *)
Theorem normalizePhone_idempotent (s : jsstring) :
  exists r, normalizePhone (VStr s) = Ok r
    /\ normalizePhone (VStr r) = Ok r
    /\ (length r <= length s)%nat.
Proof.
  exists (replace_all no_plus_ni_digito s).
  split; [apply normalizePhone_string|]. split; [|apply replace_all_length].
  by rewrite normalizePhone_string, replace_all_idem.
Qed.

(** X6. [normalizePhone] gives the empty string on every falsy argument
    ([undefined], [null], [false], 0, the empty string) and throws exactly
    on the truthy arguments that are not strings. *)
Theorem normalizePhone_falsy_and_throws (t : value) :
  (truthy t = false -> normalizePhone t = Ok [])
  /\ (normalizePhone t = TypeError <->
      truthy t = true /\ forall s, t <> VStr s).
Proof.
  split.
  - unfold normalizePhone. by intros ->.
  - unfold normalizePhone.
    destruct t as [| |[]|n|[|c s]|items ps|ps]; simpl;
      try destruct (n =? 0); simpl.
    all: split; [intros H; try done; split; done|].
    all: intros [H1 H2]; try done; exfalso; by eapply H2.
Qed.

(** ** Adding a person from the class card *)

Lemma trimStart_split (s : jsstring) :
  exists l, s = l ++ trimStart s /\ forallb is_space l = true.
Proof.
  induction s as [|c s (l & Hl & Hsp)]; simpl; [by exists []|].
  destruct (is_space c) eqn:Ec.
  - exists (c :: l). simpl. rewrite Ec, Hsp. split; [by f_equal|done].
  - by exists [].
Qed.

Lemma trimStart_head (s : jsstring) (c : N) :
  head (trimStart s) = Some c -> is_space c = false.
Proof.
  induction s as [|c0 s IH]; simpl; [done|].
  destruct (is_space c0) eqn:Ec; [done|]. simpl. by intros [= <-].
Qed.

Lemma trimStart_spaces (s : jsstring) :
  trimStart s = [] <-> forallb is_space s = true.
Proof.
  induction s as [|c s IH]; simpl; [done|].
  destruct (is_space c); simpl; [done|]. split; done.
Qed.

Lemma trimStart_snoc (l : jsstring) (c : N) :
  is_space c = false -> trimStart (l ++ [c]) = trimStart l ++ [c].
Proof.
  intros Hc. induction l as [|x l IH]; simpl; [by rewrite Hc|].
  by destruct (is_space x).
Qed.

Lemma trimEnd_cons (c : N) (s : jsstring) :
  is_space c = false -> trimEnd (c :: s) = c :: trimEnd s.
Proof.
  intros Hc. unfold trimEnd. rewrite reverse_cons, trimStart_snoc by done.
  by rewrite reverse_app.
Qed.

Lemma trimEnd_split (s : jsstring) :
  exists r, s = trimEnd s ++ r /\ forallb is_space r = true.
Proof.
  unfold trimEnd. destruct (trimStart_split (reverse s)) as (l & Hl & Hsp).
  exists (reverse l). split.
  - rewrite <- reverse_app, <- Hl. by rewrite reverse_involutive.
  - apply forallb_forall.
    intros x Hx.
    assert (H1 : x ∈ reverse l) by exact (proj2 (list_elem_of_In _ _) Hx).
    assert (H2 : x ∈ l) by exact (proj1 (elem_of_reverse _ _) H1).
    exact (proj1 (forallb_forall is_space l) Hsp x (proj1 (list_elem_of_In _ _) H2)).
Qed.

Lemma trimEnd_last (s : jsstring) (c : N) :
  last (trimEnd s) = Some c -> is_space c = false.
Proof.
  unfold trimEnd. rewrite last_reverse. apply trimStart_head.
Qed.

Lemma trim_head (s : jsstring) (c : N) :
  head (trim s) = Some c -> is_space c = false.
Proof.
  unfold trim. destruct (trimStart s) as [|c0 t] eqn:E; [done|].
  assert (Hc0 : is_space c0 = false) by (apply (trimStart_head s); by rewrite E).
  rewrite trimEnd_cons by done. simpl. by intros [= <-].
Qed.

Lemma trimStart_id (s : jsstring) :
  (forall c, head s = Some c -> is_space c = false) -> trimStart s = s.
Proof.
  destruct s as [|c s]; simpl; [done|]. intros H. by rewrite (H c).
Qed.

Lemma trimEnd_id (s : jsstring) :
  (forall c, last s = Some c -> is_space c = false) -> trimEnd s = s.
Proof.
  intros H. unfold trimEnd. rewrite trimStart_id.
  - apply reverse_involutive.
  - intros c Hc. apply H. by rewrite <- head_reverse.
Qed.

Lemma trim_idem (s : jsstring) : trim (trim s) = trim s.
Proof.
  unfold trim at 1. rewrite (trimStart_id (trim s)) by apply trim_head.
  rewrite trimEnd_id; [done|]. apply trimEnd_last.
Qed.

Lemma trim_blank (s : jsstring) : trim s = [] <-> forallb is_space s = true.
Proof.
  rewrite <- trimStart_spaces. unfold trim. split.
  - destruct (trimStart s) as [|c t] eqn:E; [done|].
    assert (Hc : is_space c = false) by (apply (trimStart_head s); by rewrite E).
    by rewrite trimEnd_cons.
  - by intros ->.
Qed.

(** X7. [trim] only takes white space away, from the two ends: the text is
    white space, then the trimmed text, then white space; the trimmed text
    neither begins nor ends with white space, and trimming it again gives
    it back. *)
Theorem trim_strips_both_ends (s : jsstring) :
  (exists l r, s = l ++ trim s ++ r
     /\ forallb is_space l = true /\ forallb is_space r = true)
  /\ (forall c, head (trim s) = Some c -> is_space c = false)
  /\ (forall c, last (trim s) = Some c -> is_space c = false)
  /\ trim (trim s) = trim s.
Proof.
  split; [|split; [apply trim_head|split; [apply trimEnd_last|apply trim_idem]]].
  destruct (trimStart_split s) as (l & Hl & Hsl).
  destruct (trimEnd_split (trimStart s)) as (r & Hr & Hsr).
  exists l, r. split; [|done]. unfold trim. by rewrite <- Hr.
Qed.

(** X8. The button does nothing at all when the name is empty or made of
    white space only: neither the document nor the two inputs change. *)
Theorem anadir_click_blank_name (now id claseId : jsstring) (inp : Entradas)
    (st : State) :
  forallb is_space (alumnoNombre inp) = true ->
  anadir_click now id claseId inp st = (st, inp).
Proof.
  intros H. unfold anadir_click. by apply trim_blank in H as ->.
Qed.

Lemma anadir_click_blank_name_witness :
  forallb is_space (str "  " ++ [9%N; 160%N]) = true
  /\ anadir_click (str "2025-08-17T09:00:00.000Z") (str "k3x9") (str "logos")
       {| alumnoNombre := str "  " ++ [9%N; 160%N]; alumnoTel := str "8888 8888" |}
       estado_inicial
     = (estado_inicial,
        {| alumnoNombre := str "  " ++ [9%N; 160%N]; alumnoTel := str "8888 8888" |}).
Proof.
  split; [reflexivity|].
  apply (anadir_click_blank_name (str "2025-08-17T09:00:00.000Z") (str "k3x9")
           (str "logos")
           {| alumnoNombre := str "  " ++ [9%N; 160%N]; alumnoTel := str "8888 8888" |}
           estado_inicial).
  reflexivity.
Defined.

(** ** Invariants kept by the operations *)

Lemma cambiar_clase_ids {B : Type} (g : Clase -> B) (classId : jsstring)
    (f : Clase -> Clase) (cs : list Clase) :
  (forall c, g (f c) = g c) -> g <$> cambiar_clase classId f cs = g <$> cs.
Proof.
  intros Hf. induction cs as [|c cs IH]; simpl; [done|].
  case_bool_decide; rewrite !fmap_cons; [by rewrite Hf|by rewrite IH].
Qed.

Lemma cambiar_clase_Forall (P : Clase -> Prop) (classId : jsstring)
    (f : Clase -> Clase) (cs : list Clase) :
  (forall c, c_id c = classId -> P c -> P (f c)) ->
  Forall P cs -> Forall P (cambiar_clase classId f cs).
Proof.
  intros Hf. induction 1 as [|c cs Hc Hcs IH]; simpl; [constructor|].
  case_bool_decide; constructor; auto.
Qed.

Lemma cambiar_clase_not_found (classId : jsstring) (f : Clase -> Clase)
    (cs : list Clase) :
  find_clase classId cs = None -> cambiar_clase classId f cs = cs.
Proof.
  unfold find_clase. induction cs as [|c cs IH]; simpl; [done|].
  case_bool_decide; [done|]. intros Hnone. by rewrite IH.
Qed.

Lemma find_clase_Some (classId : jsstring) (cs : list Clase) (c : Clase) :
  find_clase classId cs = Some c -> c ∈ cs /\ c_id c = classId.
Proof.
  unfold find_clase. intros H. apply find_some in H as [Hin Hc].
  split; [by apply list_elem_of_In|]. by apply bool_decide_eq_true in Hc.
Qed.

(** The invariants only look at the classes. *)
Lemma estado_ok_cambiar (classId : jsstring) (f : Clase -> Clase) (st st' : State) :
  clases st' = cambiar_clase classId f (clases st) ->
  (forall c, c_id (f c) = c_id c) ->
  (forall c, find_clase classId (clases st) = Some c -> roster_ok c -> roster_ok (f c)) ->
  estado_ok st -> estado_ok st'.
Proof.
  intros Hcs Hid Hf [Hnd Hall]. unfold estado_ok. rewrite Hcs.
  split; [by rewrite cambiar_clase_ids|].
  clear Hcs Hnd. unfold find_clase in Hf. revert Hf Hall.
  generalize (clases st). intros cs Hf Hall.
  induction Hall as [|c cs Hc Hcs IH]; simpl; [constructor|].
  simpl in Hf. destruct (bool_decide (c_id c = classId)) eqn:Hcid.
  - constructor; [by apply Hf|done].
  - constructor; [done|]. by apply IH.
Qed.

Lemma roster_ok_filter (p : Alumno -> bool) (c : Clase) :
  roster_ok c -> roster_ok (set_alumnos (List.filter p (c_alumnos c)) c).
Proof.
  unfold roster_ok. simpl. intros [Hnd Hall].
  induction (c_alumnos c) as [|a als IH]; simpl; [done|].
  rewrite fmap_cons in Hnd. apply NoDup_cons in Hnd as [Ha Hnd].
  apply Forall_cons in Hall as [Hn Hall].
  destruct (IH Hnd Hall) as [IH1 IH2].
  destruct (p a); [|done]. split; [|by constructor].
  rewrite fmap_cons. apply NoDup_cons. split; [|done].
  intros Hin. apply Ha. apply list_elem_of_fmap in Hin as (a' & -> & Hin).
  apply list_elem_of_fmap. exists a'. split; [done|].
  apply list_elem_of_In in Hin. apply filter_In in Hin as [Hin _].
  by apply list_elem_of_In.
Qed.

Lemma cambiar_alumno_fields {B : Type} (g : Alumno -> B) (alumnoId : jsstring)
    (f : Alumno -> Alumno) (als : list Alumno) :
  (forall a, g (f a) = g a) -> g <$> cambiar_alumno alumnoId f als = g <$> als.
Proof.
  intros Hf. induction als as [|a als IH]; simpl; [done|].
  case_bool_decide; rewrite !fmap_cons; [by rewrite Hf|by rewrite IH].
Qed.

Lemma roster_ok_telefono (alumnoId telefono : jsstring) (c : Clase) :
  roster_ok c ->
  roster_ok (set_alumnos (cambiar_alumno alumnoId (set_telefono telefono) (c_alumnos c)) c).
Proof.
  unfold roster_ok. simpl. intros [Hnd Hall]. split.
  - by rewrite cambiar_alumno_fields.
  - clear Hnd. induction Hall as [|a als Ha Hals IH]; simpl; [constructor|].
    case_bool_decide; by constructor.
Qed.

Lemma roster_ok_push (a : Alumno) (c : Clase) :
  a_id a ∉ a_id <$> c_alumnos c -> nombre_ok (a_nombre a) = true ->
  roster_ok c -> roster_ok (set_alumnos (c_alumnos c ++ [a]) c).
Proof.
  unfold roster_ok. simpl. intros Hfresh Hn [Hnd Hall]. split.
  - rewrite fmap_app. apply NoDup_app. split; [done|]. split.
    + intros x Hx. simpl. rewrite list_elem_of_singleton. by intros ->.
    + apply NoDup_singleton.
  - apply Forall_app. split; [done|]. by constructor.
Qed.

Lemma nombre_ok_trim (n : jsstring) (c : N) (t : jsstring) :
  trim n = c :: t -> nombre_ok (trim n) = true.
Proof.
  intros E. unfold nombre_ok. rewrite trim_idem, E. by apply bool_decide_eq_true.
Qed.

(** X9. Adding a person from the class card keeps the invariants of the
    data model, whatever is typed into the inputs, as long as the id drawn
    for the person is not yet used in that class: class ids and person ids
    stay distinct and every stored name is non-empty and trimmed. *)
Theorem anadir_click_keeps_invariants (now id claseId : jsstring) (inp : Entradas)
    (st : State) :
  estado_ok st ->
  (forall c, find_clase claseId (clases st) = Some c -> id ∉ a_id <$> c_alumnos c) ->
  estado_ok (anadir_click now id claseId inp st).1.
Proof.
  intros Hok Hfresh. unfold anadir_click.
  destruct (trim (alumnoNombre inp)) as [|c0 t] eqn:E; [done|]. simpl.
  unfold addAlumno. destruct (find_clase claseId (clases st)) as [c|] eqn:Ec; [|done].
  eapply (estado_ok_cambiar claseId); [reflexivity|done| |done].
  intros c' Hc' Hr. apply roster_ok_push; [| |done].
  2: { change (nombre_ok (c0 :: t) = true). rewrite <- E.
       exact (nombre_ok_trim _ _ _ E). }
  apply Hfresh. congruence.
Qed.

(** X10. The other operations keep those invariants without any condition:
    changing the teacher, removing a person, editing a phone, marking
    presence and writing a note. *)
Theorem mutations_keep_invariants (st : State) :
  estado_ok st ->
  (forall now classId docente, estado_ok (changeDocente now classId docente st))
  /\ (forall now classId alumnoId, estado_ok (removeAlumno now classId alumnoId st))
  /\ (forall now classId alumnoId telefono,
        estado_ok (editAlumnoTelefono now classId alumnoId telefono st))
  /\ (forall now f claseId alumnoId v,
        estado_ok (togglePresente now f claseId alumnoId v st))
  /\ (forall now f claseId alumnoId n,
        estado_ok (setNota now f claseId alumnoId n st)).
Proof.
  intros Hok. split; [|split; [|split; [|split]]].
  - intros now classId docente. unfold changeDocente.
    destruct (find_clase classId (clases st)); [|done].
    by eapply (estado_ok_cambiar classId); [reflexivity|..].
  - intros now classId alumnoId. unfold removeAlumno.
    destruct (find_clase classId (clases st)); [|done].
    eapply (estado_ok_cambiar classId); [reflexivity|done| |done].
    intros c' _. apply roster_ok_filter.
  - intros now classId alumnoId telefono. unfold editAlumnoTelefono.
    destruct (find_clase classId (clases st)); [|done].
    eapply (estado_ok_cambiar classId); [reflexivity|done| |done].
    intros c' _. apply roster_ok_telefono.
  - done.
  - done.
Qed.

Lemma estado_ana_ok : estado_ok estado_ana.
Proof.
  split; [refine (bool_decide_unpack _ _); by vm_compute|].
  unfold roster_ok.
  refine (bool_decide_unpack _ _). by vm_compute.
Qed.

Lemma anadir_click_keeps_invariants_witness :
  estado_ok estado_ana
  /\ estado_ok
       (anadir_click (str "2025-08-17T09:00:00.000Z") (str "b2") (str "logos")
          {| alumnoNombre := str " Beto "; alumnoTel := [] |} estado_ana).1.
Proof.
  split; [exact estado_ana_ok|].
  apply (anadir_click_keeps_invariants (str "2025-08-17T09:00:00.000Z") (str "b2")
           (str "logos") {| alumnoNombre := str " Beto "; alumnoTel := [] |}
           estado_ana estado_ana_ok).
  intros c Hc. vm_compute in Hc. injection Hc as <-.
  refine (bool_decide_unpack _ _). by vm_compute.
Defined.

Lemma mutations_keep_invariants_witness :
  estado_ok estado_ana
  /\ estado_ok (removeAlumno (str "2025-08-17T09:00:00.000Z") (str "logos")
                  (str "a1") estado_ana).
Proof.
  split; [exact estado_ana_ok|].
  exact (proj1 (proj2 (mutations_keep_invariants estado_ana estado_ana_ok)) _ _ _).
Defined.

(** X11. No operation adds, removes, reorders or renames a class, and none
    touches [version]: the ids, names and age ranges of the classes are the
    same before and after. *)
Theorem mutations_keep_classes (st : State) :
  let vista (s : State) :=
    (version s, (fun c => (c_id c, c_nombre c, c_rango c)) <$> clases s) in
  (forall now classId docente, vista (changeDocente now classId docente st) = vista st)
  /\ (forall now classId a, vista (addAlumno now classId a st) = vista st)
  /\ (forall now classId alumnoId, vista (removeAlumno now classId alumnoId st) = vista st)
  /\ (forall now classId alumnoId t,
        vista (editAlumnoTelefono now classId alumnoId t st) = vista st)
  /\ (forall now f claseId alumnoId v,
        vista (togglePresente now f claseId alumnoId v st) = vista st)
  /\ (forall now f claseId alumnoId n,
        vista (setNota now f claseId alumnoId n st) = vista st).
Proof.
  simpl. repeat split; intros; try done.
  - unfold changeDocente. destruct (find_clase _ _); [|done]. simpl.
    by rewrite cambiar_clase_ids.
  - unfold addAlumno. destruct (find_clase _ _); [|done]. simpl.
    by rewrite cambiar_clase_ids.
  - unfold removeAlumno. destruct (find_clase _ _); [|done]. simpl.
    by rewrite cambiar_clase_ids.
  - unfold editAlumnoTelefono. destruct (find_clase _ _); [|done]. simpl.
    by rewrite cambiar_clase_ids.
Qed.

(** ** Marking presence and writing notes *)







(** ** How the roster operations compose *)

Lemma cambiar_clase_twice (classId : jsstring) (f g : Clase -> Clase)
    (cs : list Clase) :
  (forall c, c_id (f c) = c_id c) ->
  cambiar_clase classId g (cambiar_clase classId f cs)
  = cambiar_clase classId (fun c => g (f c)) cs.
Proof.
  intros Hf. induction cs as [|c cs IH]; simpl; [done|].
  case_bool_decide as Hc; simpl.
  - by rewrite Hf, bool_decide_true.
  - by rewrite bool_decide_false, IH.
Qed.

Lemma cambiar_clase_ext (classId : jsstring) (f h : Clase -> Clase)
    (cs : list Clase) :
  (forall c, find_clase classId cs = Some c -> f c = h c) ->
  cambiar_clase classId f cs = cambiar_clase classId h cs.
Proof.
  unfold find_clase. induction cs as [|c cs IH]; simpl; [done|].
  destruct (bool_decide (c_id c = classId)); intros H.
  - by rewrite H.
  - by rewrite IH.
Qed.

Lemma cambiar_clase_same (classId : jsstring) (cs : list Clase) :
  cambiar_clase classId (fun c => c) cs = cs.
Proof.
  induction cs as [|c cs IH]; simpl; [done|].
  case_bool_decide; [done|]. by rewrite IH.
Qed.

Lemma filter_push_fresh (a : Alumno) (als : list Alumno) :
  a_id a ∉ a_id <$> als ->
  List.filter (fun x => negb (bool_decide (a_id x = a_id a))) (als ++ [a]) = als.
Proof.
  induction als as [|x als IH].
  - intros _. simpl. by rewrite bool_decide_true.
  - rewrite fmap_cons, not_elem_of_cons. intros [Hne Hin]. simpl.
    rewrite bool_decide_false by congruence. simpl. by rewrite IH.
Qed.

Lemma filter_filter_same {A : Type} (p : A -> bool) (l : list A) :
  List.filter p (List.filter p l) = List.filter p l.
Proof.
  induction l as [|x l IH]; simpl; [done|].
  destruct (p x) eqn:E; simpl; [|done]. by rewrite E, IH.
Qed.

Lemma borrar_sin_registros (classId alumnoId : jsstring) (asis : asistencias_t) :
  (forall f, registro_de asis f classId alumnoId = None) ->
  borrar_registro classId alumnoId <$> asis = asis.
Proof.
  intros H. apply map_eq. intros f. rewrite lookup_fmap.
  specialize (H f). unfold registro_de in H.
  destruct (asis !! f) as [pc|]; simpl; [|done]. f_equal.
  unfold borrar_registro. destruct (pc !! classId) as [regs|]; [|done].
  by rewrite H.
Qed.

(** X16. Adding a person and removing that person again gives the document
    back (but for [updatedAt]), provided the id was not in use in that
    class and no attendance was stored under it; without a class of that
    id both steps do nothing. *)
Theorem addAlumno_then_removeAlumno (now now' classId : jsstring) (a : Alumno)
    (st : State) :
  (forall c, find_clase classId (clases st) = Some c -> a_id a ∉ a_id <$> c_alumnos c) ->
  (forall f, registro_de (asistencias st) f classId (a_id a) = None) ->
  removeAlumno now' classId (a_id a) (addAlumno now classId a st)
  = if hay_clase classId st then set_updatedAt now' st else st.
Proof.
  intros Hfresh Hreg. destruct (hay_clase classId st) eqn:Hhay.
  - apply find_clase_hay in Hhay as [c Hc].
    unfold addAlumno. rewrite Hc. unfold removeAlumno. simpl.
    rewrite (find_cambiar_clase classId _ _ c) by done.
    unfold set_updatedAt, set_asistencias, set_clases. simpl. f_equal.
    + rewrite cambiar_clase_twice by done.
      rewrite (cambiar_clase_ext classId _ (fun c => c)).
      * apply cambiar_clase_same.
      * intros c' Hc'. simpl. rewrite filter_push_fresh by auto.
        by destruct c'.
    + by apply borrar_sin_registros.
  - rewrite addAlumno_not_found by done. by apply removeAlumno_not_found.
Qed.

Lemma addAlumno_then_removeAlumno_witness :
  removeAlumno (str "2025-08-17T09:05:00.000Z") (str "logos") (str "a1")
    (addAlumno (str "2025-08-17T09:00:00.000Z") (str "logos") ana estado_inicial)
  = set_updatedAt (str "2025-08-17T09:05:00.000Z") estado_inicial.
Proof.
  apply (addAlumno_then_removeAlumno (str "2025-08-17T09:00:00.000Z")
           (str "2025-08-17T09:05:00.000Z") (str "logos") ana estado_inicial).
  - intros c Hc. vm_compute in Hc. injection Hc as <-.
    refine (bool_decide_unpack _ _). by vm_compute.
  - intros f. unfold registro_de. simpl. by rewrite lookup_empty.
Defined.

(** X17. Removing a person a second time changes nothing: the document
    after two removals is the document after one. *)
Theorem removeAlumno_idempotent (now classId alumnoId : jsstring) (st : State) :
  removeAlumno now classId alumnoId (removeAlumno now classId alumnoId st)
  = removeAlumno now classId alumnoId st.
Proof.
  destruct (find_clase classId (clases st)) as [c|] eqn:Hc.
  - unfold removeAlumno at 2 3. rewrite Hc. unfold removeAlumno. simpl.
    rewrite (find_cambiar_clase classId _ _ c) by done.
    unfold set_updatedAt, set_asistencias, set_clases. simpl. f_equal.
    + rewrite cambiar_clase_twice by done.
      apply cambiar_clase_ext. intros c' _. simpl.
      by rewrite filter_filter_same.
    + apply borrar_sin_registros. intros f. rewrite registro_de_borrar.
      by rewrite decide_True.
  - unfold removeAlumno. by rewrite Hc, Hc.
Qed.

(** X18. The last teacher wins: setting the teacher of a class twice gives
    the very document that the second setting alone gives. *)
Theorem changeDocente_last_wins (now1 now2 classId d1 d2 : jsstring) (st : State) :
  changeDocente now2 classId d2 (changeDocente now1 classId d1 st)
  = changeDocente now2 classId d2 st.
Proof.
  unfold changeDocente.
  destruct (find_clase classId (clases st)) as [c|] eqn:Hc; simpl.
  - rewrite (find_cambiar_clase classId _ _ c) by done.
    unfold set_updatedAt, set_clases. simpl. f_equal.
    by rewrite cambiar_clase_twice.
  - by rewrite Hc.
Qed.

Lemma cambiar_alumno_map (alumnoId : jsstring) (f : Alumno -> Alumno)
    (als : list Alumno) :
  NoDup (a_id <$> als) ->
  cambiar_alumno alumnoId f als
  = (fun x => if bool_decide (a_id x = alumnoId) then f x else x) <$> als.
Proof.
  induction als as [|a als IH]; [done|].
  rewrite fmap_cons. intros [Ha Hnd]%NoDup_cons. rewrite fmap_cons. simpl.
  case_bool_decide as Hid; [|by rewrite IH].
  f_equal. subst alumnoId. clear IH Hnd.
  induction als as [|x als IH]; [done|].
  rewrite fmap_cons, not_elem_of_cons in Ha. destruct Ha as [Hne Ha].
  rewrite fmap_cons, bool_decide_false by congruence. by rewrite <- IH.
Qed.

(** X19. Editing a phone in a class whose person ids are distinct changes
    the phone of the persons of that id and of nobody else; ids, names and
    the attendance stay as they were. *)
Theorem editAlumnoTelefono_changes_one_phone (now classId alumnoId t : jsstring)
    (st : State) (c : Clase) :
  find_clase classId (clases st) = Some c ->
  NoDup (a_id <$> c_alumnos c) ->
  let st' := editAlumnoTelefono now classId alumnoId t st in
  find_clase classId (clases st')
  = Some (set_alumnos
            ((fun x => if bool_decide (a_id x = alumnoId)
                       then {| a_id := a_id x; a_nombre := a_nombre x;
                               a_telefono := Some t |}
                       else x) <$> c_alumnos c) c)
  /\ asistencias st' = asistencias st.
Proof.
  intros Hc Hnd. simpl. unfold editAlumnoTelefono. rewrite Hc. simpl.
  split; [|done].
  rewrite (find_cambiar_clase classId _ _ c) by done.
  by rewrite cambiar_alumno_map.
Qed.

Lemma editAlumnoTelefono_changes_one_phone_witness :
  asistencias (editAlumnoTelefono (str "2025-08-17T09:00:00.000Z") (str "logos")
                 (str "a1") (str "+506 8888 8888") estado_ana)
  = asistencias estado_ana.
Proof.
  refine (proj2 (editAlumnoTelefono_changes_one_phone
                   (str "2025-08-17T09:00:00.000Z") (str "logos") (str "a1")
                   (str "+506 8888 8888") estado_ana _ eq_refl _)).
  refine (bool_decide_unpack _ _). by vm_compute.
Defined.

(** ** The rows of the statistics by person *)





Lemma elem_of_personas (lc : jsstring -> jsstring -> Z) (rp : nat -> nat -> Z)
    (st : State) (r : Fila) :
  r ∈ personas lc rp st <->
  exists p, p ∈ (indexar (clases st)).*2
            /\ r = fila rp (asistencias st) (fechas_de (asistencias st)) p.
Proof.
  unfold personas. rewrite js_sort_perm, list_elem_of_fmap.
  split; intros (p & H1 & H2); exists p; by split.
Qed.




(** ** What a row of the statistics by person says *)

Lemma map_to_list_filter_perm {V : Type} (P : jsstring * V -> Prop)
    `{forall x, Decision (P x)} (m : gmap jsstring V) :
  map_to_list (filter P m) ≡ₚ filter P (map_to_list m).
Proof.
  apply NoDup_Permutation.
  - apply NoDup_map_to_list.
  - apply NoDup_filter, NoDup_map_to_list.
  - intros [k v]. rewrite list_elem_of_filter, !elem_of_map_to_list.
    rewrite map_lookup_filter_Some. tauto.
Qed.

Lemma fechas_de_perm (asis : asistencias_t) :
  fechas_de asis ≡ₚ (map_to_list asis).*1.
Proof. apply sort_strings_perm. Qed.

Lemma length_fechas_de (asis : asistencias_t) :
  length (fechas_de asis) = size asis.
Proof. by rewrite fechas_de_perm, length_fmap, length_map_to_list. Qed.

Lemma elem_of_fechas_de (asis : asistencias_t) (f : jsstring) :
  f ∈ fechas_de asis <-> is_Some (asis !! f).
Proof.
  rewrite fechas_de_perm, list_elem_of_fmap. split.
  - intros ([k v] & -> & Hkv). apply elem_of_map_to_list in Hkv. by exists v.
  - intros [v Hv]. exists (f, v). split; [done|]. by apply elem_of_map_to_list.
Qed.

(** The counter [presentes] of the loop. *)
Lemma foldl_paso_presentes (asis : asistencias_t) (p : Persona) (desc : list jsstring)
    (ac : Acum) :
  ac_presentes (foldl (paso asis p) ac desc)
  = (ac_presentes ac
     + length (filter (fun f => es_presente
                                  (registro_de asis f (p_classId p) (p_alumnoId p)) = true)
                 desc))%nat.
Proof.
  revert ac. induction desc as [|f desc IH]; intros ac; simpl; [lia|].
  rewrite IH, filter_cons. unfold paso.
  destruct (es_presente (registro_de asis f (p_classId p) (p_alumnoId p))) eqn:E.
  - rewrite decide_True by done. simpl. lia.
  - rewrite decide_False by done. simpl. lia.
Qed.

(** The streak and the running count never exceed the number of dates
    walked so far. *)
Lemma foldl_paso_bound (asis : asistencias_t) (p : Persona) (desc : list jsstring)
    (ac : Acum) (k : nat) :
  (ac_currentAbsentStreak ac <= k)%nat -> (ac_running ac <= k)%nat ->
  (ac_currentAbsentStreak (foldl (paso asis p) ac desc) <= k + length desc)%nat.
Proof.
  revert ac k. induction desc as [|f desc IH]; intros ac k Hs Hr; simpl; [lia|].
  replace (k + S (length desc))%nat with (S k + length desc)%nat by lia.
  apply IH; unfold paso;
    destruct (es_presente _); simpl;
    repeat match goal with |- context [if ?b then _ else _] => destruct b end; lia.
Qed.

(** Without any attendance the loop only counts. *)
Lemma foldl_paso_never (asis : asistencias_t) (p : Persona) (desc : list jsstring)
    (n : nat) :
  Forall (fun f => es_presente (registro_de asis f (p_classId p) (p_alumnoId p)) = false)
    desc ->
  foldl (paso asis p)
    {| ac_presentes := 0; ac_lastAttendance := None;
       ac_currentAbsentStreak := n; ac_running := n |} desc
  = {| ac_presentes := 0; ac_lastAttendance := None;
       ac_currentAbsentStreak := (n + length desc)%nat;
       ac_running := (n + length desc)%nat |}.
Proof.
  intros H. revert n. induction H as [|f desc Hf H IH]; intros n; simpl.
  - by rewrite Nat.add_0_r.
  - unfold paso at 2. rewrite Hf. simpl. rewrite IH. f_equal; lia.
Qed.

(** X22. In every row, [semanas] is the number of date keys of the
    attendance and [presentes] is the number of those dates on which the
    person of the row (class id and person id) has a record with
    [presente] true; so [presentes] never exceeds [semanas]. *)
Theorem fila_counts_dates (lc : jsstring -> jsstring -> Z) (rp : nat -> nat -> Z)
    (st : State) (r : Fila) :
  r ∈ personas lc rp st ->
  semanas r = size (asistencias st)
  /\ presentes r
     = size (filter (fun kv : jsstring * porClase_t =>
                       es_presente (registro_de (asistencias st) kv.1
                                      (p_classId (persona r)) (p_alumnoId (persona r)))
                       = true)
               (asistencias st))
  /\ (presentes r <= semanas r)%nat.
Proof.
  intros (p & _ & ->)%elem_of_personas. simpl.
  set (asis := asistencias st).
  set (P := fun f => es_presente (registro_de asis f (p_classId p) (p_alumnoId p)) = true).
  assert (Hpres : ac_presentes (recorrer asis p (fechas_de asis))
                  = length (filter P (fechas_de asis))).
  { unfold recorrer. rewrite foldl_paso_presentes. simpl.
    by rewrite reverse_Permutation. }
  split; [apply length_fechas_de|]. split.
  - rewrite Hpres, fechas_de_perm.
    rewrite <- length_map_to_list, map_to_list_filter_perm.
    generalize (map_to_list asis). intros l.
    induction l as [|[k v] l IH]; [done|].
    rewrite fmap_cons, !filter_cons. unfold P in *. simpl.
    repeat case_decide; try done; simpl; by rewrite IH.
  - rewrite Hpres. apply length_filter.
Qed.

Lemma fila_counts_dates_witness :
  exists r, r ∈ personas localeCompare_c (fun _ _ => 0) estado_racha
            /\ semanas r = 3%nat /\ presentes r = 2%nat.
Proof.
  assert (Hin : fila (fun _ _ => 0) (asistencias estado_racha)
                  (fechas_de (asistencias estado_racha))
                  (persona_de (set_alumnos [ana]
                                 (clase_vacia (str "logos") (str "Logos") (anos "18" "24")))
                     ana)
                ∈ personas localeCompare_c (fun _ _ => 0) estado_racha)
    by (vm_compute; left).
  eexists. split; [exact Hin|].
  destruct (fila_counts_dates _ _ _ _ Hin) as (Hs & Hp & _).
  split; [rewrite Hs|rewrite Hp]; by vm_compute.
Defined.

(** X23. A person with no attendance on any date has a streak of all the
    dates, no last attendance and no presence; the alert is raised exactly
    when there are three dates or more. *)
Theorem fila_never_present (lc : jsstring -> jsstring -> Z) (rp : nat -> nat -> Z)
    (st : State) (r : Fila) :
  r ∈ personas lc rp st ->
  (forall f, es_presente (registro_de (asistencias st) f
                            (p_classId (persona r)) (p_alumnoId (persona r))) = false) ->
  currentAbsentStreak r = size (asistencias st)
  /\ lastAttendance r = None
  /\ presentes r = 0%nat
  /\ abandono r = (3 <=? size (asistencias st))%nat.
Proof.
  intros (p & _ & ->)%elem_of_personas. simpl. intros Hnever.
  unfold recorrer. rewrite (foldl_paso_never _ _ _ 0).
  - simpl. by rewrite length_reverse, length_fechas_de.
  - apply Forall_forall. intros f _. apply Hnever.
Qed.

Lemma fila_never_present_witness :
  exists r, r ∈ personas localeCompare_c (fun _ _ => 0)
                  (addAlumno (str "2025-08-03T11:00:00.000Z") (str "logos") ana
                     estado_dos_fechas)
            /\ currentAbsentStreak r = 2%nat.
Proof.
  assert (Hin : fila (fun _ _ => 0) (asistencias estado_dos_fechas)
                  (fechas_de (asistencias estado_dos_fechas))
                  (persona_de (set_alumnos [ana]
                                 (clase_vacia (str "logos") (str "Logos") (anos "18" "24")))
                     ana)
                ∈ personas localeCompare_c (fun _ _ => 0)
                    (addAlumno (str "2025-08-03T11:00:00.000Z") (str "logos") ana
                       estado_dos_fechas))
    by (vm_compute; left).
  eexists. split; [exact Hin|].
  destruct (fila_never_present _ _ _ _ Hin) as (Hs & _).
  - intros f. simpl. unfold registro_de.
    destruct (decide (f = str "2025-01-05")) as [->|H1]; [by vm_compute|].
    destruct (decide (f = str "2025-01-12")) as [->|H2]; [by vm_compute|].
    simpl. by rewrite !lookup_insert_ne, lookup_empty by done.
  - rewrite Hs. by vm_compute.
Defined.

(** X24. The streak of a row never exceeds the number of dates; hence with
    fewer than three dates nobody is flagged. *)
Theorem fila_streak_bounded (lc : jsstring -> jsstring -> Z) (rp : nat -> nat -> Z)
    (st : State) (r : Fila) :
  r ∈ personas lc rp st ->
  (currentAbsentStreak r <= semanas r)%nat
  /\ ((size (asistencias st) < 3)%nat -> abandono r = false).
Proof.
  intros (p & _ & ->)%elem_of_personas. simpl.
  assert (Hb : (ac_currentAbsentStreak
                  (recorrer (asistencias st) p (fechas_de (asistencias st)))
                <= length (fechas_de (asistencias st)))%nat).
  { unfold recorrer. rewrite <- (length_reverse (fechas_de _)).
    apply (foldl_paso_bound _ _ _ _ 0); simpl; lia. }
  split; [done|]. rewrite length_fechas_de in Hb. intros Hlt. revert Hb.
  destruct (ac_currentAbsentStreak _) as [|[|[|n]]]; intros Hb; try done. lia.
Qed.

Lemma fila_streak_bounded_witness :
  exists r, r ∈ personas localeCompare_c (fun _ _ => 0) estado_racha
            /\ (currentAbsentStreak r <= semanas r)%nat.
Proof.
  assert (Hin : fila (fun _ _ => 0) (asistencias estado_racha)
                  (fechas_de (asistencias estado_racha))
                  (persona_de (set_alumnos [ana]
                                 (clase_vacia (str "logos") (str "Logos") (anos "18" "24")))
                     ana)
                ∈ personas localeCompare_c (fun _ _ => 0) estado_racha)
    by (vm_compute; left).
  eexists. split; [exact Hin|].
  exact (proj1 (fila_streak_bounded _ _ _ _ Hin)).
Defined.

Lemma es_fecha_nonempty (f : jsstring) : es_fecha f = true -> f <> [].
Proof. by destruct f. Qed.

Lemma fechas_de_nonempty (asis : asistencias_t) :
  fechas_iso asis = true -> Forall (fun f => f <> []) (fechas_de asis).
Proof.
  intros Hiso. apply Forall_forall. intros f Hf%elem_of_fechas_de.
  by apply es_fecha_nonempty, (fechas_iso_spec asis).
Qed.

(** X25. With ISO dates as keys, the streak of a row is the number of most
    recent dates without attendance, unless two attended dates follow one
    another somewhere, in which case it is 0.  In particular a person who
    attended on the most recent date has a streak of 0 and is not
    flagged. *)
Theorem fila_streak_law (lc : jsstring -> jsstring -> Z) (rp : nat -> nat -> Z)
    (st : State) (r : Fila) :
  r ∈ personas lc rp st ->
  fechas_iso (asistencias st) = true ->
  let desc := reverse (fechas_de (asistencias st)) in
  let cid := p_classId (persona r) in
  let aid := p_alumnoId (persona r) in
  currentAbsentStreak r
  = (if seguidas (asistencias st) cid aid false desc then 0%nat
     else racha_spec (asistencias st) cid aid desc)
  /\ (forall f, head desc = Some f ->
        es_presente (registro_de (asistencias st) f cid aid) = true ->
        currentAbsentStreak r = 0%nat /\ abandono r = false).
Proof.
  intros (p & _ & ->)%elem_of_personas Hiso. simpl.
  pose proof (recorrer_currentAbsentStreak (asistencias st) p
                (fechas_de (asistencias st)) (fechas_de_nonempty _ Hiso)) as Hlaw.
  split; [done|]. intros f Hhead Hpres. rewrite Hlaw.
  destruct (reverse (fechas_de (asistencias st))) as [|f' desc]; [done|].
  injection Hhead as ->. simpl. rewrite Hpres. simpl.
  by destruct (seguidas _ _ _ true desc).
Qed.

Lemma fila_streak_law_witness :
  fechas_iso (asistencias estado_ana) = true
  /\ exists r, r ∈ personas localeCompare_c (fun _ _ => 0) estado_ana
               /\ currentAbsentStreak r = 0%nat /\ abandono r = false.
Proof.
  split; [by vm_compute|].
  assert (Hin : fila (fun _ _ => 0) (asistencias estado_ana)
                  (fechas_de (asistencias estado_ana))
                  (persona_de (set_alumnos [ana]
                                 (clase_vacia (str "logos") (str "Logos") (anos "18" "24")))
                     ana)
                ∈ personas localeCompare_c (fun _ _ => 0) estado_ana)
    by (vm_compute; left).
  eexists. split; [exact Hin|].
  refine (proj2 (fila_streak_law _ _ _ _ Hin _) (str "2025-08-10") _ _);
    by vm_compute.
Defined.

(** ** The last attendance *)

Lemma foldl_paso_last_set (asis : asistencias_t) (p : Persona) (desc : list jsstring)
    (ac : Acum) :
  sin_ultima (ac_lastAttendance ac) = false ->
  ac_lastAttendance (foldl (paso asis p) ac desc) = ac_lastAttendance ac.
Proof.
  revert ac. induction desc as [|f desc IH]; intros ac Hac; simpl; [done|].
  rewrite IH; unfold paso; destruct (es_presente _); simpl; by rewrite ?Hac.
Qed.

Lemma foldl_paso_last (asis : asistencias_t) (p : Persona) (desc : list jsstring)
    (ac : Acum) :
  Forall (fun f => f <> []) desc ->
  ac_lastAttendance ac = None ->
  ac_lastAttendance (foldl (paso asis p) ac desc)
  = head (filter (fun f => es_presente
                             (registro_de asis f (p_classId p) (p_alumnoId p)) = true)
            desc).
Proof.
  intros Hne. revert ac. induction Hne as [|f desc Hf Hne IH]; intros ac Hac; simpl.
  - done.
  - rewrite filter_cons.
    destruct (es_presente (registro_de asis f (p_classId p) (p_alumnoId p))) eqn:E.
    + rewrite decide_True by done. simpl.
      rewrite foldl_paso_last_set; unfold paso; rewrite E, Hac; simpl; [done|].
      by destruct f.
    + rewrite decide_False by done.
      apply IH. unfold paso. by rewrite E.
Qed.

Lemma StronglySorted_reverse_flip {A : Type} (R : A -> A -> Prop) (l : list A) :
  StronglySorted R l -> StronglySorted (fun a b => R b a) (reverse l).
Proof.
  induction 1 as [|x l Hl IH Hx]; [constructor|].
  rewrite reverse_cons. apply StronglySorted_app. split; [|split].
  - intros a b Ha Hb. rewrite elem_of_reverse in Ha.
    rewrite list_elem_of_singleton in Hb. subst b.
    rewrite Forall_forall in Hx. by apply Hx.
  - exact IH.
  - repeat constructor.
Qed.

Lemma head_filter_greatest (P : jsstring -> Prop) `{forall f, Decision (P f)}
    (desc : list jsstring) (f : jsstring) :
  StronglySorted (fun a b => str_leb b a = true) desc ->
  head (filter P desc) = Some f ->
  P f /\ f ∈ desc /\ forall g, g ∈ desc -> P g -> str_leb g f = true.
Proof.
  induction 1 as [|x desc Hs IH Hx]; [done|].
  rewrite filter_cons. destruct (decide (P x)) as [Hp|Hp]; simpl.
  - intros [= ->]. split; [done|]. split; [by left|].
    intros g [->|Hg]%elem_of_cons _.
    + unfold str_leb. by rewrite str_compare_refl.
    + rewrite Forall_forall in Hx. by apply Hx.
  - intros Hh. destruct (IH Hh) as (H1 & H2 & H3).
    split; [done|]. split; [by right|].
    intros g [->|Hg]%elem_of_cons Hpg; [done|]. by apply H3.
Qed.

Lemma registro_de_key (asis : asistencias_t) (f c a : jsstring) :
  es_presente (registro_de asis f c a) = true -> is_Some (asis !! f).
Proof. unfold registro_de. by destruct (asis !! f). Qed.

(** X26. With ISO dates as keys, [lastAttendance] of a row is the greatest
    date on which the person has [presente] true, and it is unset exactly
    when there is no such date. *)
Theorem fila_lastAttendance_greatest (lc : jsstring -> jsstring -> Z)
    (rp : nat -> nat -> Z) (st : State) (r : Fila) :
  r ∈ personas lc rp st ->
  fechas_iso (asistencias st) = true ->
  let present f := es_presente (registro_de (asistencias st) f
                                  (p_classId (persona r)) (p_alumnoId (persona r))) in
  match lastAttendance r with
  | None => forall f, present f = false
  | Some f => present f = true /\ forall g, present g = true -> str_leb g f = true
  end.
Proof.
  intros (p & _ & ->)%elem_of_personas Hiso. simpl.
  set (asis := asistencias st).
  unfold recorrer. rewrite foldl_paso_last; [|apply Forall_reverse, fechas_de_nonempty; done|done].
  pose proof (StronglySorted_reverse_flip _ _ (sort_strings_sorted (map_to_list asis).*1))
    as Hsorted.
  fold (fechas_de asis) in Hsorted.
  destruct (head (filter _ (reverse (fechas_de asis)))) as [f|] eqn:Hh.
  - destruct (head_filter_greatest _ _ _ Hsorted Hh) as (H1 & H2 & H3).
    split; [done|]. intros g Hg. apply H3; [|done].
    rewrite elem_of_reverse, elem_of_fechas_de. by eapply registro_de_key.
  - intros f. destruct (es_presente (registro_de asis f _ _)) eqn:E; [|done].
    exfalso. apply head_None in Hh.
    assert (Hin : f ∈ filter (fun f => es_presente
                                (registro_de asis f (p_classId p) (p_alumnoId p)) = true)
                      (reverse (fechas_de asis))).
    { apply list_elem_of_filter. split; [done|].
      rewrite elem_of_reverse, elem_of_fechas_de. by eapply registro_de_key. }
    rewrite Hh in Hin. by apply elem_of_nil in Hin.
Qed.

Lemma fila_lastAttendance_greatest_witness :
  fechas_iso (asistencias estado_racha) = true
  /\ exists r, r ∈ personas localeCompare_c (fun _ _ => 0) estado_racha
               /\ lastAttendance r = Some (str "2025-08-10")
               /\ forall g, es_presente (registro_de (asistencias estado_racha) g
                                           (str "logos") (str "a1")) = true ->
                            str_leb g (str "2025-08-10") = true.
Proof.
  split; [by vm_compute|].
  assert (Hin : fila (fun _ _ => 0) (asistencias estado_racha)
                  (fechas_de (asistencias estado_racha))
                  (persona_de (set_alumnos [ana]
                                 (clase_vacia (str "logos") (str "Logos") (anos "18" "24")))
                     ana)
                ∈ personas localeCompare_c (fun _ _ => 0) estado_racha)
    by (vm_compute; left).
  eexists. split; [exact Hin|]. split; [by vm_compute|].
  pose proof (fila_lastAttendance_greatest _ _ _ _ Hin eq_refl) as H.
  exact (proj2 H).
Defined.

(** ** The order of the rows and of the ranking *)

Lemma comparar_filas_le (lc : jsstring -> jsstring -> Z) (a b : Fila) :
  comparar_filas lc a b <= 0 <->
  (abandono a = true /\ abandono b = false)
  \/ (abandono a = abandono b
      /\ ((currentAbsentStreak b < currentAbsentStreak a)%nat
          \/ (currentAbsentStreak a = currentAbsentStreak b
              /\ lc (p_nombre (persona a)) (p_nombre (persona b)) <= 0))).
Proof.
  unfold comparar_filas.
  destruct (abandono a), (abandono b); simpl; try (split; [lia|]; intros H; try lia;
    destruct H as [[? ?]|[? _]]; congruence || lia).
  all: destruct (Nat.eqb_spec (currentAbsentStreak a) (currentAbsentStreak b)) as [E|E];
    simpl; split; intros H; try lia.
  all: try (right; split; [done|]; (right; split; [done|lia]) || (left; lia)).
  all: destruct H as [[? ?]|[_ [?|[? ?]]]]; try congruence; try lia.
Qed.

Section row_order.
Variable localeCompare : jsstring -> jsstring -> Z.
Variable round_pct : nat -> nat -> Z.

(** The locale orders the names: any two names compare, one way or the
    other, and the comparison is transitive. *)
Hypothesis localeCompare_total : forall a b,
  localeCompare a b <= 0 \/ localeCompare b a <= 0.
Hypothesis localeCompare_trans : forall a b c,
  localeCompare a b <= 0 -> localeCompare b c <= 0 -> localeCompare a c <= 0.

(** X27. The rows come with the flagged persons first and, within the
    flagged and within the others, by streak from the longest to the
    shortest; rows that tie on both follow the locale's order of the
    names. *)
Theorem personas_sorted (st : State) :
  StronglySorted
    (fun a b =>
       (abandono b = true -> abandono a = true)
       /\ (abandono a = abandono b ->
           (currentAbsentStreak b <= currentAbsentStreak a)%nat)
       /\ (abandono a = abandono b ->
           currentAbsentStreak a = currentAbsentStreak b ->
           localeCompare (p_nombre (persona a)) (p_nombre (persona b)) <= 0))
    (personas localeCompare round_pct st).
Proof using localeCompare_total localeCompare_trans.
  unfold personas.
  eapply StronglySorted_weaken; [|apply js_sort_sorted].
  - intros a b _ _ H. apply comparar_filas_le in H.
    destruct H as [[Ha Hb]|[Hab [Hlt|[Heq Hlc]]]].
    + rewrite Ha, Hb. split; [done|]. split; intros; congruence.
    + split; [congruence|]. split; intros; lia.
    + split; [congruence|]. split; intros; [lia|done].
  - intros a b. rewrite !comparar_filas_le.
    destruct (localeCompare_total (p_nombre (persona a)) (p_nombre (persona b))).
    all: destruct (abandono a), (abandono b); try tauto.
    all: destruct (lt_eq_lt_dec (currentAbsentStreak a) (currentAbsentStreak b))
           as [[?|?]|?]; intuition (auto with zarith).
  - intros a b c. rewrite !comparar_filas_le.
    intros [[Ha Hb]|[Hab [Hlt|[Heq Hlc]]]] [[Hb' Hc]|[Hbc [Hlt'|[Heq' Hlc']]]];
      try congruence.
    all: try (left; split; congruence).
    all: right; split; try congruence.
    all: try (left; lia).
    right. split; [congruence|]. by eapply localeCompare_trans.
Qed.
End row_order.

Lemma personas_sorted_witness :
  StronglySorted
    (fun a b => abandono b = true -> abandono a = true)
    (personas localeCompare_c (fun _ _ => 0) estado_racha).
Proof.
  eapply StronglySorted_weaken;
    [|apply (personas_sorted localeCompare_c (fun _ _ => 0))].
  - intros a b _ _ H. apply H.
  - intros a b. unfold localeCompare_c. rewrite !signo_le. apply str_leb_total.
  - intros a b c. unfold localeCompare_c. rewrite !signo_le. apply str_leb_trans.
Defined.

(** X28. The ranking holds the points of the series, each once, from the
    greatest total to the smallest. *)
Theorem ranking_sorted (lc : jsstring -> jsstring -> Z) (st : State) :
  ranking lc st ≡ₚ serie lc st
  /\ StronglySorted (fun a b => (total b <= total a)%nat) (ranking lc st).
Proof.
  unfold ranking. split; [apply js_sort_perm|].
  eapply StronglySorted_weaken; [|apply js_sort_sorted].
  - intros a b _ _ H. simpl in H. lia.
  - intros a b. lia.
  - intros a b c. lia.
Qed.

(** ** The last date and its breakdown by class *)

Lemma last_sorted_greatest (l : list jsstring) (x : jsstring) :
  StronglySorted (fun a b => str_leb a b = true) l ->
  last l = Some x ->
  x ∈ l /\ forall y, y ∈ l -> str_leb y x = true.
Proof.
  induction 1 as [|z l Hl IH Hz]; [done|].
  destruct l as [|z' l'].
  - intros [= ->]. split; [by left|].
    intros y ->%list_elem_of_singleton. unfold str_leb. by rewrite str_compare_refl.
  - change (last (z :: z' :: l')) with (last (z' :: l')). intros Hlast.
    destruct (IH Hlast) as [Hin Hmax]. split; [by right|].
    intros y [->|Hy]%elem_of_cons; [|by apply Hmax].
    rewrite Forall_forall in Hz. by apply Hz.
Qed.

(** X29. The last date is the greatest date key of the attendance, in the
    order of code units; there is none exactly when the attendance is
    empty; and it is the empty string only when the empty string is the
    one key there is. *)
Theorem ultimaFecha_greatest_key (st : State) :
  match ultimaFecha st with
  | None => asistencias st = empty
  | Some f =>
      is_Some (asistencias st !! f)
      /\ (forall g, is_Some (asistencias st !! g) -> str_leb g f = true)
      /\ (f = [] -> forall g, is_Some (asistencias st !! g) -> g = [])
  end.
Proof.
  unfold ultimaFecha. destruct (last (fechas_de (asistencias st))) as [f|] eqn:Hl.
  - destruct (last_sorted_greatest _ _ (sort_strings_sorted _) Hl) as [Hin Hmax].
    split; [by apply elem_of_fechas_de|].
    assert (Hall : forall g, is_Some (asistencias st !! g) -> str_leb g f = true).
    { intros g Hg. by apply Hmax, elem_of_fechas_de. }
    split; [done|]. intros -> g Hg. specialize (Hall g Hg). by destruct g.
  - apply last_None in Hl. apply map_size_empty_inv.
    by rewrite <- length_fechas_de, Hl.
Qed.

Lemma foldl_count_bool {B : Type} (p : B -> bool) (l : list B) (n0 : nat) :
  foldl (fun n x => if p x then S n else n) n0 l
  = (n0 + length (List.filter p l))%nat.
Proof.
  revert n0. induction l as [|x l IH]; intros n0; simpl; [lia|].
  rewrite IH. destruct (p x); simpl; lia.
Qed.

Lemma contar_registros_values (registros : registros_t) :
  contar_registros registros
  = length (List.filter (fun r => es_presente (Some r)) (map_to_list registros).*2).
Proof.
  unfold contar_registros.
  rewrite (foldl_count_bool (fun ar : jsstring * Registro => es_presente (Some ar.2))).
  rewrite Nat.add_0_l.
  induction (map_to_list registros) as [|[k r] l IH]; [done|].
  rewrite fmap_cons. cbn [List.filter snd].
  destruct (es_presente (Some r)); cbn [length]; [by rewrite IH|exact IH].
Qed.

(** X30. When there is a last date and it is not the empty string, the
    breakdown has one bar for every class, in the order of the classes,
    with the name of the class and with the very count that the attendance
    taker shows for that class on that date; otherwise it is empty. *)
Theorem breakdown_matches_badge (st : State) :
  match ultimaFecha st with
  | Some (c0 :: f0) =>
      breakdown st
      = (fun c => {| b_clase := c_nombre c;
                     b_presentes := badge_presentes st (c0 :: f0) (c_id c) |})
          <$> clases st
  | _ => breakdown st = []
  end.
Proof.
  unfold breakdown. destruct (ultimaFecha st) as [[|c0 f0]|]; try done.
  apply list_fmap_ext. intros i c _. f_equal.
  unfold badge_presentes, registrosClase. apply contar_registros_values.
Qed.

Example breakdown_estado_ana :
  breakdown estado_ana
  = [ {| b_clase := str "Logos"; b_presentes := 1 |};
      {| b_clase := str "Smart Class"; b_presentes := 0 |};
      {| b_clase := str "Moriah"; b_presentes := 0 |};
      {| b_clase := str "Horeb"; b_presentes := 0 |};
      {| b_clase := str "Sabidur" ++ [237%N] ++ str "a"; b_presentes := 0 |} ].
Proof. by vm_compute. Qed.
